(** * Palette generator: colour model, constrained generator, palette engine,
      accessibility analyser and library editing

    A shallow embedding of the script blocks of
    [src/components/color-card.vue] (the generator view),
    [src/views/PaletteLibraryView.vue] and [src/views/ExportView.vue].

    Conventions.
    - A JavaScript string is a [string]: a sequence of code units, here the
      code units below 256.
    - An integer-valued [number] (a colour channel, a size, an index) is a [Z];
      [NaN] as the result of [parseInt] is [None].
    - A [number] that carries a luminance or a contrast ratio is a binary64
      [float] with the kernel's IEEE 754 operations.
    - [Math.random], [Math.pow] and [JSON.parse] belong to the runtime:
      [Math.random] is a finite supply of samples threaded through the
      generator, the other two are section variables.
    - The code does not check what it reads from storage. A saved session
      that parses to a value of another shape than the declared one puts
      values outside their types into the reactive state; the outcome
      [IllTyped] of [loadFromStorage] and [onMounted] records that, and the
      model says nothing about what follows it. *)

From Stdlib Require Import ZArith QArith Qround Lia Bool List Ascii String.
From Stdlib Require Import Floats.
From Stdlib Require Import Sorted.
From stdpp Require Import base option list strings gmap.
Import ListNotations.

Set Warnings "-inexact-float".

Local Open Scope string_scope.
Local Open Scope Z_scope.

(** ** Runtime primitives on strings *)

Module JS.

Definition code (c : ascii) : N := N_of_ascii c.

(** WhiteSpace and LineTerminator code units below 256: TAB, LF, VT, FF, CR,
    SP and NBSP. *)
Definition isWhiteSpace (c : ascii) : bool :=
  let n := code c in
  ((9 <=? n) && (n <=? 13) || (n =? 32) || (n =? 160))%N.

Definition isDigit (c : ascii) : bool :=
  let n := code c in ((48 <=? n) && (n <=? 57))%N.

(** [String.prototype.trimStart] *)
Fixpoint trimStart (s : string) : string :=
  match s with
  | String c r => if isWhiteSpace c then trimStart r else s
  | EmptyString => EmptyString
  end.

(** [String.prototype.trimEnd] *)
Fixpoint trimEnd (s : string) : string :=
  match s with
  | String c r =>
      match trimEnd r with
      | EmptyString => if isWhiteSpace c then EmptyString else String c EmptyString
      | r' => String c r'
      end
  | EmptyString => EmptyString
  end.

(** [String.prototype.trim] *)
Definition trim (s : string) : string := trimEnd (trimStart s).

(** [s.slice(a, b)] for [0 <= a <= b]. *)
Definition slice (s : string) (a b : nat) : string := substring a (b - a) s.

(** [s.startsWith(p)] *)
Definition startsWith (s p : string) : bool := String.prefix p s.

(** [s.replace(pat, rep)] for a one-character string pattern: only the first
    occurrence is replaced. *)
Fixpoint replace (pat : ascii) (rep : string) (s : string) : string :=
  match s with
  | String c r => if Ascii.eqb c pat then rep ++ r else String c (replace pat rep r)
  | EmptyString => EmptyString
  end.

(** [s.split(sep)] for a one-character separator; the result is never empty. *)
Fixpoint split (sep : ascii) (s : string) : list string :=
  match s with
  | String c r =>
      if Ascii.eqb c sep then EmptyString :: split sep r
      else match split sep r with
           | p :: ps => String c p :: ps
           | [] => [String c EmptyString]
           end
  | EmptyString => [EmptyString]
  end.

Fixpoint repeatChar (n : nat) (c : ascii) : string :=
  match n with
  | O => EmptyString
  | S k => String c (repeatChar k c)
  end.

(** [s.padStart(n, fill)] for a one-character fill. *)
Definition padStart (n : nat) (fill : ascii) (s : string) : string :=
  repeatChar (n - String.length s) fill ++ s.

(** [String.prototype.toLowerCase] on code units below 256. *)
Definition lowerChar (c : ascii) : ascii :=
  let n := code c in
  if ((65 <=? n) && (n <=? 90) ||
      (192 <=? n) && (n <=? 222) && negb (n =? 215))%N
  then ascii_of_N (n + 32) else c.

Fixpoint toLowerCase (s : string) : string :=
  match s with
  | String c r => String (lowerChar c) (toLowerCase r)
  | EmptyString => EmptyString
  end.

(** Value of a digit in radix 16. *)
Definition hexDigitValue (c : ascii) : option Z :=
  let n := code c in
  if ((48 <=? n) && (n <=? 57))%N then Some (Z.of_N n - 48)
  else if ((97 <=? n) && (n <=? 102))%N then Some (Z.of_N n - 87)
  else if ((65 <=? n) && (n <=? 70))%N then Some (Z.of_N n - 55)
  else None.

Definition isHexDigit (c : ascii) : bool :=
  match hexDigitValue c with Some _ => true | None => false end.

(** The longest prefix of radix-16 digits, as a number; [acc] is [None] while
    no digit has been read. *)
Fixpoint parseDigits16 (s : string) (acc : option Z) : option Z :=
  match s with
  | String c r =>
      match hexDigitValue c with
      | Some d => parseDigits16 r (Some (16 * default 0 acc + d))
      | None => acc
      end
  | EmptyString => acc
  end.

(** [parseInt(s, 16)]: leading white space is skipped, then an optional sign,
    then an optional [0x] or [0X], then the longest run of hexadecimal digits;
    whatever follows is ignored. [None] is [NaN]: no digit was found.
    The result [-0] of [parseInt("-0", 16)] is the integer [0]. *)
Definition parseInt16 (s : string) : option Z :=
  let s1 := trimStart s in
  let '(neg, s2) :=
    match s1 with
    | String "-"%char r => (true, r)
    | String "+"%char r => (false, r)
    | _ => (false, s1)
    end in
  let s3 :=
    match s2 with
    | String "0"%char (String x r) =>
        if Ascii.eqb x "x"%char || Ascii.eqb x "X"%char then r else s2
    | _ => s2
    end in
  match parseDigits16 s3 None with
  | Some v => Some (if neg then - v else v)
  | None => None
  end.

Definition hexDigitChar (d : Z) : ascii :=
  if d <? 10 then ascii_of_N (Z.to_N (48 + d)) else ascii_of_N (Z.to_N (87 + d)).

Fixpoint hexDigits (fuel : nat) (n : Z) (acc : string) : string :=
  match fuel with
  | O => acc
  | S f =>
      let acc' := String (hexDigitChar (n mod 16)) acc in
      if n / 16 =? 0 then acc' else hexDigits f (n / 16) acc'
  end.

(** [n.toString(16)] for an integer [n]. *)
Definition toString16 (n : Z) : string :=
  if n <? 0
  then String "-"%char (hexDigits (S (Z.to_nat (Z.log2 (- n)))) (- n) EmptyString)
  else hexDigits (S (Z.to_nat (Z.log2 n))) n EmptyString.

Fixpoint decDigits (fuel : nat) (n : Z) (acc : string) : string :=
  match fuel with
  | O => acc
  | S f =>
      let acc' := String (ascii_of_N (Z.to_N (48 + n mod 10))) acc in
      if n / 10 =? 0 then acc' else decDigits f (n / 10) acc'
  end.

(** [String(n)], as a template literal renders an integer [n]. *)
Definition toString10 (n : Z) : string :=
  if n <? 0
  then String "-"%char (decDigits (S (Z.to_nat (Z.log2 (- n)))) (- n) EmptyString)
  else decDigits (S (Z.to_nat (Z.log2 n))) n EmptyString.

End JS.

(** ** Colour model *)

Record Rgb := mkRgb { r : Z; g : Z; b : Z }.

(** [parseHexToRgb]: [null] is [None]. *)
Definition parseHexToRgb (hex : string) : option Rgb :=
  let clean := JS.replace "#"%char "" hex in
  if negb (String.length clean =? 6)%nat then None
  else
    match JS.parseInt16 (JS.slice clean 0 2),
          JS.parseInt16 (JS.slice clean 2 4),
          JS.parseInt16 (JS.slice clean 4 6) with
    | Some r, Some g, Some b => Some (mkRgb r g b)
    | _, _, _ => None
    end.

(** [rgbToHex] *)
Definition rgbToHex (r g b : Z) : string :=
  JS.padStart 2 "0"%char (JS.toString16 r) ++
  JS.padStart 2 "0"%char (JS.toString16 g) ++
  JS.padStart 2 "0"%char (JS.toString16 b).

(** ** Numbers *)

Module Num.

(** The binary64 value of a small integer (exact below [2^53]). *)
Definition ofZ (z : Z) : float :=
  if z <? 0 then (- of_uint63 (Uint63.of_Z (- z)))%float
  else of_uint63 (Uint63.of_Z z).

(** [Math.max(a, b)]: [NaN] if either argument is; two arguments that compare
    equal without being the same value are the two zeros, and the larger of
    them is [+0]. *)
Definition Math_max (a b : float) : float :=
  if is_nan a || is_nan b then nan
  else if (a <? b)%float then b
  else if (b <? a)%float then a
  else if PrimFloat.Leibniz.eqb a b then a else zero.

(** [Math.min(a, b)] *)
Definition Math_min (a b : float) : float :=
  if is_nan a || is_nan b then nan
  else if (a <? b)%float then a
  else if (b <? a)%float then b
  else if PrimFloat.Leibniz.eqb a b then a else neg_zero.

End Num.

(** ** The order of binary64 values, on keys *)

Module NumOrder.

(** A key whose lexicographic order is the order of the values that are not
    [NaN]. *)
Definition key (x : spec_float) : option (Z * Z * Z) :=
  match x with
  | S754_nan => None
  | S754_zero _ => Some (0, 0, 0)
  | S754_infinity s => Some (if s then -2 else 2, 0, 0)
  | S754_finite s m e =>
      Some (if s then (-1, - e, Z.neg m) else (1, e, Z.pos m))
  end.

Definition lexcmp (a b : Z * Z * Z) : comparison :=
  let '(a1, a2, a3) := a in
  let '(b1, b2, b3) := b in
  match a1 ?= b1 with
  | Eq => match a2 ?= b2 with
          | Eq => a3 ?= b3
          | c => c
          end
  | c => c
  end.

Definition keycmp (x y : spec_float) : option comparison :=
  match key x, key y with
  | Some a, Some b => Some (lexcmp a b)
  | _, _ => None
  end.

(** [x < y] on the keys. *)
Definition klt (x y : float) : Prop :=
  exists a b, key (Prim2SF x) = Some a /\ key (Prim2SF y) = Some b /\ lexcmp a b = Lt.

(** [x <= y] on the keys. *)
Definition kle (x y : float) : Prop :=
  exists a b, key (Prim2SF x) = Some a /\ key (Prim2SF y) = Some b /\ lexcmp b a <> Lt.

End NumOrder.

(** ** The random source

    [Math.random()] yields a double in [[0, 1)], which is a rational; the
    source is a finite list of such samples, consumed from the front. A
    computation that asks for a sample when none is left has no result: the
    loop that asked is still waiting. *)

Definition Rand (A : Type) : Type := list Q -> option (A * list Q).

Definition ret {A} (a : A) : Rand A := fun src => Some (a, src).

Definition bind {A B} (m : Rand A) (k : A -> Rand B) : Rand B :=
  fun src => match m src with
             | Some (a, src') => k a src'
             | None => None
             end.

Notation "x <- m ;; k" := (bind m (fun x => k))
  (at level 100, m at next level, right associativity).

Definition Math_random : Rand Q :=
  fun src => match src with
             | u :: rest => Some (u, rest)
             | [] => None
             end.

(** A sample of [Math.random()] lies in [[0, 1)]. *)
Definition unit_sample (u : Q) : Prop := (0 <= u)%Q /\ (u < 1)%Q.

(** [getRandomInt]: the product [Math.random() * (max - min + 1)] is taken
    exactly. *)
Definition getRandomInt (min max : Z) : Rand Z :=
  u <- Math_random ;;
  ret (Qfloor (u * inject_Z (max - min + 1)) + min).

Inductive ColorCodeType := HEX | RGB.

Inductive AccessibilityLevel := AAA | AA | none.

(** [getAccessibilityLevel] *)
Definition getAccessibilityLevel (ratio : float) : AccessibilityLevel :=
  if (7 <=? ratio)%float then AAA
  else if (4.5 <=? ratio)%float then AA
  else none.

Definition AAA_CONTRAST_RATIO : float := 7%float.

(** *** Records of the generator view *)

Record PaletteColor := { value : string; isPinned : bool }.

Record SavedPaletteState := {
  saved_colors : list PaletteColor;
  saved_format : ColorCodeType;
  saved_size : Z;
  saved_isDarkPreview : bool
}.

(** What [JSON.parse] makes of the text of the saved session, when it does
    not throw and the value is not [null]. The cast [as SavedPaletteState]
    checks nothing: [SessionObject] is an object whose four fields have the
    declared types ([colors] an array of objects with a string [value] and a
    boolean [isPinned], [format] one of the two names, [size] a whole number,
    [isDarkPreview] a boolean); [SessionOther] is every other value, such as
    an object that lacks a field or holds a fractional [size]. *)
Inductive ParsedSession :=
| SessionObject (parsed : SavedPaletteState)
| SessionOther.

(** The reactive state of the view together with the browser's
    [localStorage]. *)
Record State := {
  format : ColorCodeType;
  paletteSize : Z;
  colors : list PaletteColor;
  pinedColors : list PaletteColor;
  isDarkPreview : bool;
  localStorage : gmap string string
}.

(** The outcome of a step that assigns stored data to the reactive state:
    [Typed] when every field still holds a value of its declared type.
    [IllTyped] when [loadFromStorage] has assigned the fields of a
    [SessionOther]: the refs then hold values outside their types
    ([undefined] for a missing field, a fraction for the size), and what the
    view does next, a [TypeError] out of [onMounted] on [colors.value.length]
    or a run with those values, is not described by [State]. *)
Inductive Loaded :=
| Typed (st : State)
| IllTyped.

Definition set_colors (st : State) (cs : list PaletteColor) : State :=
  {| format := format st; paletteSize := paletteSize st; colors := cs;
     pinedColors := pinedColors st; isDarkPreview := isDarkPreview st;
     localStorage := localStorage st |}.

Definition set_paletteSize (st : State) (n : Z) : State :=
  {| format := format st; paletteSize := n; colors := colors st;
     pinedColors := pinedColors st; isDarkPreview := isDarkPreview st;
     localStorage := localStorage st |}.

(** [localStorage.removeItem] *)
Definition removeItem (key : string) (st : State) : State :=
  {| format := format st; paletteSize := paletteSize st; colors := colors st;
     pinedColors := pinedColors st; isDarkPreview := isDarkPreview st;
     localStorage := delete key (localStorage st) |}.

Definition STORAGE_KEY : string := "color-generator-palette-v1".
Definition LIBRARY_STORAGE_KEY : string := "palette_library".
Definition ACTIVE_PALETTE_KEY : string := "color-generator-active-from-library".

(** The state the view is created with. *)
Definition initialState (storage : gmap string string) : State :=
  {| format := HEX; paletteSize := 5; colors := []; pinedColors := [];
     isDarkPreview := true; localStorage := storage |}.

(** What [JSON.parse] makes of the hand-off text, seen through the cast
    [as { colors?: string[] }] of the source: the value [null], whose
    property read throws, or any other value with its [colors] property,
    [None] when the property is missing or is not an array. *)
Inductive ActivePayload :=
  | ActiveNull
  | ActiveObject (colors : option (list string)).

(** *** The pattern of [rgbStringToHex]

    [/rgb\s*\((\d+)\s*,\s*(\d+)\s*,\s*(\d+)\s*\)/i], searched anywhere in the
    string. The three classes that follow one another (digits, white space,
    punctuation) are disjoint, so the greedy reading is the only one. *)

Module Pattern.

Definition isChar (x : ascii) (c : ascii) : bool := Ascii.eqb x c.

(** A letter of the pattern under the [i] flag. *)
Definition isLetter (lower upper : ascii) (c : ascii) : bool :=
  Ascii.eqb c lower || Ascii.eqb c upper.

(** [\s*] *)
Definition skipSpace (s : string) : string := JS.trimStart s.

(** [(\d+)]: the digits read as [Number] reads them, and the rest. The value
    is exact below [2^53]. *)
Fixpoint digitsFrom (s : string) (acc : option Z) : option Z * string :=
  match s with
  | String c r =>
      if JS.isDigit c
      then digitsFrom r (Some (10 * default 0 acc + (Z.of_N (JS.code c) - 48)))
      else (acc, s)
  | EmptyString => (acc, s)
  end.

Definition expect (p : ascii -> bool) (s : string) : option string :=
  match s with
  | String c r => if p c then Some r else None
  | EmptyString => None
  end.

(** The pattern matched at the start of [s]: the three captures. *)
Definition matchHere (s : string) : option (Z * Z * Z) :=
  s ← expect (isLetter "r" "R") s;
  s ← expect (isLetter "g" "G") s;
  s ← expect (isLetter "b" "B") s;
  s ← expect (isChar "(") (skipSpace s);
  let '(r, s) := digitsFrom s None in
  r ← r;
  s ← expect (isChar ",") (skipSpace s);
  let '(g, s) := digitsFrom (skipSpace s) None in
  g ← g;
  s ← expect (isChar ",") (skipSpace s);
  let '(b, s) := digitsFrom (skipSpace s) None in
  b ← b;
  _ ← expect (isChar ")") (skipSpace s);
  Some (r, g, b).

(** [rgbStr.match(pattern)]: the leftmost match. *)
Fixpoint search (s : string) : option (Z * Z * Z) :=
  match matchHere s with
  | Some m => Some m
  | None => match s with
            | String _ r => search r
            | EmptyString => None
            end
  end.

End Pattern.

(** [rgbStringToHex]; the captures are exact below [2^53], and a capture
    above 255 already makes the result longer than six digits. *)
Definition rgbStringToHex (rgbStr : string) : string :=
  match Pattern.search rgbStr with
  | None => "000000"
  | Some (r, g, b) => rgbToHex r g b
  end.

(** The HEX reading of a stored value, as the analyser takes it. *)
Definition hexOf (v : string) : string :=
  if JS.startsWith v "rgb" then rgbStringToHex v else v.

(** *** Records of the library view *)

(** [item_colors] is the field [colors] of the source. *)
Record SavedPaletteItem := {
  id : string;
  name : string;
  tags : list string;
  item_colors : list string;
  favorite : bool;
  createdAt : string
}.

Record Library := {
  items : list SavedPaletteItem;
  editingId : option string;
  editName : string;
  editTags : string
}.

(** [Boolean(s)] for a string. *)
Definition truthy (s : string) : bool := negb (String.eqb s "").

(** The two assignments of [saveEdit] to the entry found. *)
Definition applyEdit (newName newTags : string) (it : SavedPaletteItem)
  : SavedPaletteItem :=
  {| id := id it;
     name := if truthy (JS.trim newName) then JS.trim newName else name it;
     tags := List.filter truthy (map JS.trim (JS.split "," newTags));
     item_colors := item_colors it;
     favorite := favorite it;
     createdAt := createdAt it |}.

(** The entry [items.find] returns is the first one that satisfies the
    predicate; the assignments change it in place. *)
Fixpoint updateFound (p : SavedPaletteItem -> bool)
    (f : SavedPaletteItem -> SavedPaletteItem) (l : list SavedPaletteItem)
  : option (list SavedPaletteItem) :=
  match l with
  | it :: l' =>
      if p it then Some (f it :: l')
      else match updateFound p f l' with
           | Some l'' => Some (it :: l'')
           | None => None
           end
  | [] => None
  end.

(** [saveEdit] *)
Definition saveEdit (lib : Library) : Library :=
  match editingId lib with
  | Some eid =>
      if truthy eid then
        match updateFound (fun i => String.eqb (id i) eid)
                (applyEdit (editName lib) (editTags lib)) (items lib) with
        | Some items' =>
            {| items := items'; editingId := None; editName := ""; editTags := "" |}
        | None => lib
        end
      else lib
  | None => lib
  end.

(** ** A sample runtime

    One admissible [Math.pow], for running the model on concrete inputs:
    [exp (y * ln x)] by power series. *)

Module Sample.

Fixpoint atanhSeries (n : nat) (k zpow z2 acc : float) : float :=
  match n with
  | O => acc
  | S n' => atanhSeries n' (k + 2)%float (zpow * z2)%float z2 (acc + zpow / k)%float
  end.

Definition ln (x : float) : float :=
  let z := ((x - 1) / (x + 1))%float in
  (2 * atanhSeries 200 1 z (z * z) 0)%float.

Fixpoint expSeries (n : nat) (k term acc t : float) : float :=
  match n with
  | O => acc
  | S n' => expSeries n' (k + 1)%float (term * t / k)%float (acc + term)%float t
  end.

Definition exp (t : float) : float :=
  if (t <? 0)%float then (1 / expSeries 60 1 1 0 (- t))%float
  else expSeries 60 1 1 0 t.

Definition Math_pow (x y : float) : float :=
  if (x <=? 0)%float then 0%float else exp (y * ln x)%float.

(** JSON texts for the examples, and [JSON.parse] on them. A text that is not
    listed is taken not to parse, as the empty text and [oops] do not. *)

Definition quoted (s : string) : string :=
  let dq := String (ascii_of_nat 34) EmptyString in (dq ++ s ++ dq)%string.

Definition handoffText : string :=
  ("{" ++ quoted "colors" ++ ":[" ++ quoted "112233" ++ "," ++ quoted "445566"
   ++ "]}")%string.

Definition emptyColorsText : string := ("{" ++ quoted "colors" ++ ":[]}")%string.

Definition savedText : string :=
  ("{" ++ quoted "colors" ++ ":[{" ++ quoted "value" ++ ":" ++ quoted "112233"
   ++ "," ++ quoted "isPinned" ++ ":true},{" ++ quoted "value" ++ ":"
   ++ quoted "445566" ++ "," ++ quoted "isPinned" ++ ":false},{"
   ++ quoted "value" ++ ":" ++ quoted "778899" ++ "," ++ quoted "isPinned"
   ++ ":false}]," ++ quoted "format" ++ ":" ++ quoted "HEX" ++ ","
   ++ quoted "size" ++ ":3," ++ quoted "isDarkPreview" ++ ":false}")%string.

Definition JSON_parse_active (raw : string) : option ActivePayload :=
  if String.eqb raw handoffText then Some (ActiveObject (Some ["112233"; "445566"]))
  else if String.eqb raw emptyColorsText then Some (ActiveObject (Some []))
  else if String.eqb raw "{}" then Some (ActiveObject None)
  else if String.eqb raw "null" then Some ActiveNull
  else None.

Definition JSON_parse_state (raw : string) : option ParsedSession :=
  if String.eqb raw savedText then
    Some (SessionObject
            {| saved_colors :=
                 [ {| value := "112233"; isPinned := true |};
                   {| value := "445566"; isPinned := false |};
                   {| value := "778899"; isPinned := false |} ];
               saved_format := HEX; saved_size := 3; saved_isDarkPreview := false |})
  else if String.eqb raw "{}" then Some SessionOther
  else None.

End Sample.

Section Runtime.

(** [Math.pow], which the language leaves to the implementation. *)
Variable Math_pow : float -> float -> float.

(** [JSON.parse] on the hand-off text; [None] when it throws. *)
Variable JSON_parse_active : string -> option ActivePayload.

(** [JSON.parse] on the text of the saved session; [None] when it throws or
    yields [null], whose first property read throws inside the [try]. *)
Variable JSON_parse_state : string -> option ParsedSession.

(** [srgbChannelToLinear] *)
Definition srgbChannelToLinear (channel : Z) : float :=
  let c := (Num.ofZ channel / 255)%float in
  if (c <=? 0.03928)%float then (c / 12.92)%float
  else Math_pow ((c + 0.055) / 1.055)%float 2.4%float.

(** [getRelativeLuminance] *)
Definition getRelativeLuminance (r g b : Z) : float :=
  let R := srgbChannelToLinear r in
  let G := srgbChannelToLinear g in
  let B := srgbChannelToLinear b in
  (0.2126 * R + 0.7152 * G + 0.0722 * B)%float.

(** [getContrastRatio] *)
Definition getContrastRatio (l1 l2 : float) : float :=
  let lighter := Num.Math_max l1 l2 in
  let darker := Num.Math_min l1 l2 in
  ((lighter + 0.05) / (darker + 0.05))%float.

(** [isAaaContrastWithWhite] *)
Definition isAaaContrastWithWhite (r g b : Z) : bool :=
  let bgL := getRelativeLuminance r g b in
  let whiteL := 1%float in
  let ratio := getContrastRatio whiteL bgL in
  (AAA_CONTRAST_RATIO <=? ratio)%float.

(** The loop of [getRandomAaaRgbColor]; every turn draws three samples, so a
    fuel above the number of samples left never runs out first. *)
Fixpoint getRandomAaaRgbColor_loop (fuel : nat) : Rand Rgb :=
  match fuel with
  | O => fun _ => None
  | S fuel' =>
      r <- getRandomInt 0 120 ;;
      g <- getRandomInt 0 120 ;;
      b <- getRandomInt 0 120 ;;
      if isAaaContrastWithWhite r g b then ret (mkRgb r g b)
      else getRandomAaaRgbColor_loop fuel'
  end.

(** [getRandomAaaRgbColor] *)
Definition getRandomAaaRgbColor : Rand Rgb :=
  fun src => getRandomAaaRgbColor_loop (S (List.length src)) src.

Definition rgbString (r g b : Z) : string :=
  ("rgb(" ++ JS.toString10 r ++ ", " ++ JS.toString10 g ++ ", " ++
   JS.toString10 b ++ ")")%string.

Definition encodeColor (type : ColorCodeType) (c : Rgb) : string :=
  match type with
  | HEX => rgbToHex (r c) (g c) (b c)
  | RGB => rgbString (r c) (g c) (b c)
  end.

(** The [for] loop of [generateRandomPaletteValues], [n] turns to go. *)
Fixpoint generateRandomPaletteValues_loop
    (type : ColorCodeType) (n : nat) (result : list string) : Rand (list string) :=
  match n with
  | O => ret result
  | S n' =>
      c <- getRandomAaaRgbColor ;;
      generateRandomPaletteValues_loop type n' (result ++ [encodeColor type c])
  end.

(** [generateRandomPaletteValues] *)
Definition generateRandomPaletteValues (type : ColorCodeType) (length : Z)
  : Rand (list string) :=
  generateRandomPaletteValues_loop type (Z.to_nat length) [].

(** *** Palette state *)

(** [Array.prototype.slice(0, n)] for an integer [n]: a negative [n] counts
    from the end. *)
Definition Array_slice0 {A} (l : list A) (n : Z) : list A :=
  if n <? 0 then firstn (Z.to_nat (Z.max (Z.of_nat (List.length l) + n) 0)) l
  else firstn (Z.to_nat n) l.

Definition unpinned (v : string) : PaletteColor :=
  {| value := v; isPinned := false |}.

(** [ensurePaletteSize]. The filters on [undefined] in the source are
    identities on an array of strings and are left out. *)
Definition ensurePaletteSize (st : State) : Rand State :=
  if Z.of_nat (List.length (colors st)) <? paletteSize st then
    let missing := paletteSize st - Z.of_nat (List.length (colors st)) in
    newValues <- generateRandomPaletteValues (format st) missing ;;
    ret (set_colors st (colors st ++ map unpinned newValues))
  else if paletteSize st <? Z.of_nat (List.length (colors st)) then
    ret (set_colors st (Array_slice0 (colors st) (paletteSize st)))
  else ret st.

(** [handleChangeSize], after the [v-model] binding has stored the selected
    size. *)
Definition handleChangeSize (newSize : Z) (st : State) : Rand State :=
  ensurePaletteSize (set_paletteSize st newSize).

(** First loop of [generateNewPalette]: the pinned entries, in order. *)
Fixpoint pushPinned (cs result : list PaletteColor) : list PaletteColor :=
  match cs with
  | c :: cs' => pushPinned cs' (if isPinned c then result ++ [c] else result)
  | [] => result
  end.

(** Second loop: one new value for every entry that is not pinned, while new
    values last; [i] is the loop's counter. *)
Fixpoint pushFresh (cs : list PaletteColor) (newValues : list string) (i : nat)
    (result : list PaletteColor) : list PaletteColor :=
  match cs with
  | c :: cs' =>
      if negb (isPinned c) && (i <? List.length newValues)%nat then
        match nth_error newValues i with
        | Some v => pushFresh cs' newValues (S i) (result ++ [unpinned v])
        | None => pushFresh cs' newValues (S i) result
        end
      else pushFresh cs' newValues i result
  | [] => result
  end.

(** Third loop: [while (result.length < paletteSize)], one generated value a
    turn. *)
Fixpoint fillToSize (fuel : nat) (type : ColorCodeType) (size : Z)
    (result : list PaletteColor) : Rand (list PaletteColor) :=
  if Z.of_nat (List.length result) <? size then
    match fuel with
    | O => fun _ => None
    | S fuel' =>
        extraValues <- generateRandomPaletteValues type 1 ;;
        match nth_error extraValues 0 with
        | Some v => fillToSize fuel' type size (result ++ [unpinned v])
        | None => fillToSize fuel' type size result
        end
    end
  else ret result.

(** [generateNewPalette] *)
Definition generateNewPalette (st : State) : Rand State :=
  let pinned := List.filter isPinned (colors st) in
  let pinnedCount := Z.of_nat (List.length pinned) in
  let needed := Z.max 0 (paletteSize st - pinnedCount) in
  newValues <- generateRandomPaletteValues (format st) needed ;;
  let result := pushPinned (colors st) [] in
  let result := pushFresh (colors st) newValues 0 result in
  result <- fillToSize (Z.to_nat (paletteSize st - Z.of_nat (List.length result)))
              (format st) (paletteSize st) result ;;
  ret (set_colors st (Array_slice0 result (paletteSize st))).

(** *** Start-up *)

(** [loadFromStorage]. The four fields of the parsed value are assigned as
    they are, whatever they hold; an exception is caught and leaves the
    state as it is. *)
Definition loadFromStorage (st : State) : Loaded :=
  match localStorage st !! STORAGE_KEY with
  | Some raw =>
      if String.eqb raw "" then Typed st
      else match JSON_parse_state raw with
           | Some (SessionObject parsed) =>
               Typed {| format := saved_format parsed;
                        paletteSize := saved_size parsed;
                        colors := saved_colors parsed;
                        pinedColors := pinedColors st;
                        isDarkPreview := saved_isDarkPreview parsed;
                        localStorage := localStorage st |}
           | Some SessionOther => IllTyped
           | None => Typed st
           end
  | None => Typed st
  end.

(** The [try] block of [onMounted]; a caught exception leaves the state as
    it is. *)
Definition applyActivePalette (activeRaw : string) (st : State) : Rand State :=
  match JSON_parse_active activeRaw with
  | Some (ActiveObject (Some (hex :: hexes))) =>
      let fromLibrary := map unpinned (hex :: hexes) in
      let st :=
        if paletteSize st <? Z.of_nat (List.length fromLibrary)
        then set_paletteSize st (Z.of_nat (List.length fromLibrary)) else st in
      if Z.of_nat (List.length fromLibrary) <? paletteSize st then
        let missing := paletteSize st - Z.of_nat (List.length fromLibrary) in
        extra <- generateRandomPaletteValues (format st) missing ;;
        ret (set_colors st
               (Array_slice0 (fromLibrary ++ map unpinned extra) (paletteSize st)))
      else ret (set_colors st (Array_slice0 fromLibrary (paletteSize st)))
  | Some (ActiveObject _) => ret st
  | Some ActiveNull => ret st
  | None => ret st
  end.

(** The [else] branch of [onMounted]: the regular start from the saved
    session. *)
Definition regularLoad (st : State) : Rand Loaded :=
  match loadFromStorage st with
  | Typed st =>
      if (List.length (colors st) =? 0)%nat then
        values <- generateRandomPaletteValues (format st) (paletteSize st) ;;
        ret (Typed (set_colors st (map unpinned values)))
      else
        st <- ensurePaletteSize st ;;
        ret (Typed st)
  | IllTyped => ret IllTyped
  end.

(** [onMounted]. The condition [if (activeRaw)] holds for a text that is not
    empty; the [finally] block runs once the [try] block is left. *)
Definition onMounted (st : State) : Rand Loaded :=
  match localStorage st !! ACTIVE_PALETTE_KEY with
  | Some activeRaw =>
      if String.eqb activeRaw "" then regularLoad st
      else
        st <- applyActivePalette activeRaw st ;;
        ret (Typed (removeItem ACTIVE_PALETTE_KEY st))
  | None => regularLoad st
  end.

(** *** Accent colour *)

Record Accent := { accent_value : string; ratio : float }.

(** One turn of the scan of [accentColor]. *)
Definition accentStep (midL : float) (best : option Accent) (c : PaletteColor)
  : option Accent :=
  let h := hexOf (value c) in
  match parseHexToRgb h with
  | None => best
  | Some rgb =>
      let l := getRelativeLuminance (r rgb) (g rgb) (b rgb) in
      let ratio' := getContrastRatio midL l in
      match best with
      | None => Some {| accent_value := "#" ++ h; ratio := ratio' |}
      | Some bst =>
          if (ratio bst <? ratio')%float
          then Some {| accent_value := "#" ++ h; ratio := ratio' |}
          else best
      end
  end.

(** [accentColor] *)
Definition accentColor (colors : list PaletteColor) : option Accent :=
  if (List.length colors =? 0)%nat then None
  else
    let midIndex := (List.length colors / 2)%nat in
    match nth_error colors midIndex with
    | None => None
    | Some mid =>
        let midHex := hexOf (value mid) in
        match parseHexToRgb midHex with
        | None => None
        | Some midRgb =>
            let midL := getRelativeLuminance (r midRgb) (g midRgb) (b midRgb) in
            fold_left (accentStep midL) colors None
        end
    end.

(** *** Predicates of the statements *)

(** What the generator hands out: the encoding of a colour whose channels lie
    in [[0, 120]] and whose contrast with white is at least 7. *)
Definition accepted (c : Rgb) : Prop :=
  0 <= r c <= 120 /\ 0 <= g c <= 120 /\ 0 <= b c <= 120 /\
  isAaaContrastWithWhite (r c) (g c) (b c) = true.

Definition generated (type : ColorCodeType) (v : string) : Prop :=
  exists c, v = encodeColor type c /\ accepted c.

(** The contrast ratio of an entry against the reference luminance, when the
    entry's value reads as a colour. *)
Definition ratioOf (midL : float) (c : PaletteColor) : option float :=
  match parseHexToRgb (hexOf (value c)) with
  | Some rgb =>
      Some (getContrastRatio midL (getRelativeLuminance (r rgb) (g rgb) (b rgb)))
  | None => None
  end.

(** [best] is the answer of the scan over [seen]. *)
Definition scanned (midL : float) (seen : list PaletteColor) (best : option Accent)
  : Prop :=
  match best with
  | None => forall j c, nth_error seen j = Some c -> ratioOf midL c = None
  | Some a =>
      exists i c,
        nth_error seen i = Some c /\
        ratioOf midL c = Some (ratio a) /\
        accent_value a = ("#" ++ hexOf (value c))%string /\
        (forall j c' q, nth_error seen j = Some c' -> ratioOf midL c' = Some q ->
                        (ratio a <? q)%float = false) /\
        (forall j c' q, (j < i)%nat -> nth_error seen j = Some c' ->
                        ratioOf midL c' = Some q -> (ratio a <=? q)%float = false)
  end.

End Runtime.

(** ** Sample data and predicates on inputs *)

Local Open Scope list_scope.

(** The channel [getRandomInt(0, 120)] makes of a sample. *)
Definition channelOf (u : Q) : Z := Qfloor (u * inject_Z (120 - 0 + 1)) + 0.

Definition black : Rgb := mkRgb 0 0 0.

(** A source that yields [n] times black. *)
Definition blackSource (n : nat) : list Q := repeat 0%Q (3 * n).

(** Nine samples: the colours (30, 12, 40) and (108, 60, 90), and three
    samples more. *)
Definition sampleSource : list Q :=
  [1#4; 1#10; 1#3; 9#10; 1#2; 3#4; 0; 1#121; 5#121]%Q.

(** The entries that are not pinned. *)
Definition loose (cs : list PaletteColor) : list PaletteColor :=
  List.filter (fun c => negb (isPinned c)) cs.

Definition pin (v : string) : PaletteColor := {| value := v; isPinned := true |}.

(** The palette of the scenario: [ff0000], [00ff00] pinned, [0000ff]. *)
Definition scenario : State :=
  {| format := HEX; paletteSize := 3;
     colors := [unpinned "ff0000"; pin "00ff00"; unpinned "0000ff"];
     pinedColors := [pin "00ff00"];
     isDarkPreview := true; localStorage := ∅ |}.


(** Seven entries, the last two pinned. *)
Definition sevenColors : State :=
  {| format := HEX; paletteSize := 7;
     colors := [unpinned "101010"; unpinned "202020"; unpinned "303030";
                unpinned "404040"; unpinned "505050"; pin "606060"; pin "707070"];
     pinedColors := [pin "606060"; pin "707070"];
     isDarkPreview := true; localStorage := ∅ |}.

Fixpoint allHex (s : string) : bool :=
  match s with
  | String c r => JS.isHexDigit c && allHex r
  | EmptyString => true
  end.

(** A string of exactly six hexadecimal digits. *)
Definition isHex6 (h : string) : bool := (String.length h =? 6)%nat && allHex h.

Definition allAscii : list ascii := map ascii_of_nat (seq 0 256).

(** Two hexadecimal digits read by [parseInt] and written back by
    [toString(16)] and [padStart]. *)
Definition pairCheck (c1 c2 : ascii) : bool :=
  if JS.isHexDigit c1 && JS.isHexDigit c2 then
    match JS.parseInt16 (String c1 (String c2 EmptyString)) with
    | Some v =>
        (0 <=? v) && (v <=? 255) &&
        String.eqb (JS.padStart 2 "0" (JS.toString16 v))
          (String (JS.lowerChar c1) (String (JS.lowerChar c2) EmptyString)) &&
        negb (Ascii.eqb c1 "#") && negb (Ascii.eqb c2 "#")
    | None => false
    end
  else true.

(** A string that does not begin with white space. *)
Definition headed (s : string) : Prop :=
  match s with
  | String c _ => JS.isWhiteSpace c = false
  | EmptyString => True
  end.

(** The tags as the specification words them: split, trimmed, without the
    empty ones, and each tag kept at its first occurrence only. *)
Fixpoint dedupFirst (seen l : list string) : list string :=
  match l with
  | t :: l' =>
      if existsb (String.eqb t) seen then dedupFirst seen l'
      else t :: dedupFirst (t :: seen) l'
  | [] => []
  end.

Definition specTags (input : string) : list string :=
  dedupFirst [] (List.filter truthy (map JS.trim (JS.split "," input))).

Definition sunset : SavedPaletteItem :=
  {| id := "pal_1"; name := "Sunset glow"; tags := ["generated"];
     item_colors := ["112233"; "445566"]; favorite := true;
     createdAt := "2024-01-01T00:00:00.000Z" |}.

Definition ocean : SavedPaletteItem :=
  {| id := "pal_2"; name := "Ocean"; tags := ["generated"];
     item_colors := ["001122"]; favorite := false;
     createdAt := "2024-01-02T00:00:00.000Z" |}.

(** The second entry is being edited: a blank name and a tag twice. *)
Definition editing : Library :=
  {| items := [sunset; ocean]; editingId := Some "pal_2";
     editName := "   "; editTags := " warm, dark ,,warm " |}.

(** A storage with a saved session of three colours and a hand-off text. *)
Definition storageWith (activeRaw : string) : gmap string string :=
  {[ ACTIVE_PALETTE_KEY := activeRaw; STORAGE_KEY := Sample.savedText ]}.

(** ** The rest of the generator view *)

Definition set_format (st : State) (f : ColorCodeType) : State :=
  {| format := f; paletteSize := paletteSize st; colors := colors st;
     pinedColors := pinedColors st; isDarkPreview := isDarkPreview st;
     localStorage := localStorage st |}.

Definition flipPin (c : PaletteColor) : PaletteColor :=
  {| value := value c; isPinned := negb (isPinned c) |}.

(** [handleTogglePin]: [colors.value[index]] is [undefined] for an index
    below zero or past the end; the entry found is changed in place. *)
Definition handleTogglePin (index : Z) (st : State) : State :=
  let item := if index <? 0 then None else colors st !! Z.to_nat index in
  match item with
  | None => st
  | Some _ =>
      let cs := alter flipPin (Z.to_nat index) (colors st) in
      {| format := format st; paletteSize := paletteSize st; colors := cs;
         pinedColors := List.filter isPinned cs; isDarkPreview := isDarkPreview st;
         localStorage := localStorage st |}
  end.

(** [savePalette]'s reading of a stored value as HEX. *)
Definition savedHex (c : PaletteColor) : string :=
  if JS.startsWith (value c) "rgb" then
    match Pattern.search (value c) with
    | None => "000000"
    | Some (r, g, b) => rgbToHex r g b
    end
  else JS.replace "#" "" (value c).

Record AnalysisRow := {
  row_hex : string;
  whiteRatio : float;
  blackRatio : float;
  whiteLevel : AccessibilityLevel;
  blackLevel : AccessibilityLevel
}.

Section Runtime2.

Variable Math_pow : float -> float -> float.

(** [handleChangeFormat], after the [v-model] binding has stored the selected
    format. *)
Definition handleChangeFormat (newFormat : ColorCodeType) (st : State) : Rand State :=
  let st := set_format st newFormat in
  let pinned := List.filter isPinned (colors st) in
  let pinnedCount := Z.of_nat (List.length pinned) in
  let needed := Z.max 0 (paletteSize st - pinnedCount) in
  newValues <- generateRandomPaletteValues Math_pow (format st) needed ;;
  let result := pushPinned (colors st) [] in
  let result := pushFresh (colors st) newValues 0 result in
  result <- fillToSize Math_pow
              (Z.to_nat (paletteSize st - Z.of_nat (List.length result)))
              (format st) (paletteSize st) result ;;
  ret (set_colors st (Array_slice0 result (paletteSize st))).

(** The row [accessibilityAnalysis] computes for one entry; [null] is
    [None]. *)
Definition analysisRow (c : PaletteColor) : option AnalysisRow :=
  let hex := hexOf (value c) in
  match parseHexToRgb hex with
  | None => None
  | Some rgb =>
      let bgL := getRelativeLuminance Math_pow (r rgb) (g rgb) (b rgb) in
      let whiteRatio := getContrastRatio 1 bgL in
      let blackRatio := getContrastRatio 0 bgL in
      Some {| row_hex := "#" ++ hex;
              whiteRatio := whiteRatio;
              blackRatio := blackRatio;
              whiteLevel := getAccessibilityLevel whiteRatio;
              blackLevel := getAccessibilityLevel blackRatio |}
  end.

(** [accessibilityAnalysis]: the rows, without the [null] ones. *)
Definition accessibilityAnalysis (colors : list PaletteColor) : list AnalysisRow :=
  omap analysisRow colors.

End Runtime2.

(** ** The rest of the library view *)

(** [s.includes(q)] *)
Fixpoint includes (s q : string) : bool :=
  if String.prefix q s then true
  else match s with
       | String _ r => includes r q
       | EmptyString => false
       end.

(** [Array.prototype.join] on strings. *)
Fixpoint Array_join (sep : string) (l : list string) : string :=
  match l with
  | [] => EmptyString
  | [x] => x
  | x :: l' => (x ++ sep ++ Array_join sep l')%string
  end.

(** The predicate of [filteredItems]; [q] and [tag] are the trimmed and
    lowered filters. *)
Definition matchesFilters (q tag : string) (showFavoritesOnly : bool)
    (it : SavedPaletteItem) : bool :=
  if showFavoritesOnly && negb (favorite it) then false
  else if truthy q &&
          negb (includes (JS.toLowerCase (name it)) q ||
                existsb (fun t => includes (JS.toLowerCase t) q) (tags it))
  then false
  else if truthy tag &&
          negb (existsb (fun t => String.eqb (JS.toLowerCase t) tag) (tags it))
  then false
  else true.

(** [filteredItems] *)
Definition filteredItems (search tagFilter : string) (showFavoritesOnly : bool)
    (items : list SavedPaletteItem) : list SavedPaletteItem :=
  let q := JS.toLowerCase (JS.trim search) in
  let tag := JS.toLowerCase (JS.trim tagFilter) in
  List.filter (matchesFilters q tag showFavoritesOnly) items.

Definition flipFavorite (it : SavedPaletteItem) : SavedPaletteItem :=
  {| id := id it; name := name it; tags := tags it; item_colors := item_colors it;
     favorite := negb (favorite it); createdAt := createdAt it |}.

(** [toggleFavorite] *)
Definition toggleFavorite (ident : string) (lib : Library) : Library :=
  match updateFound (fun i => String.eqb (id i) ident) flipFavorite (items lib) with
  | Some items' =>
      {| items := items'; editingId := editingId lib; editName := editName lib;
         editTags := editTags lib |}
  | None => lib
  end.

(** [deleteItem] *)
Definition deleteItem (ident : string) (lib : Library) : Library :=
  {| items := List.filter (fun i => negb (String.eqb (id i) ident)) (items lib);
     editingId := editingId lib; editName := editName lib; editTags := editTags lib |}.

(** [startEdit] *)
Definition startEdit (item : SavedPaletteItem) (lib : Library) : Library :=
  {| items := items lib; editingId := Some (id item); editName := name item;
     editTags := Array_join ", " (tags item) |}.

(** [cancelEdit] *)
Definition cancelEdit (lib : Library) : Library :=
  {| items := items lib; editingId := None; editName := ""; editTags := "" |}.

(** The elements of a [Set] in insertion order: each value where it was first
    added. *)
Fixpoint setAdd (seen : list string) (l : list string) : list string :=
  match l with
  | t :: l' =>
      if existsb (String.eqb t) seen then setAdd seen l'
      else setAdd (seen ++ [t]) l'
  | [] => seen
  end.

Fixpoint insertSorted (x : string) (l : list string) : list string :=
  match l with
  | y :: l' => if String.leb x y then x :: l else y :: insertSorted x l'
  | [] => [x]
  end.

(** [Array.prototype.sort] without a comparator, on strings: ascending by
    code units. The result does not depend on the algorithm. *)
Definition Array_sort (l : list string) : list string :=
  fold_right insertSorted [] l.

(** [allTags] *)
Definition allTags (items : list SavedPaletteItem) : list string :=
  Array_sort (setAdd [] (flat_map tags items)).

(** [JSON.stringify] of a string: the quotes and the backslash are escaped,
    and so are the control characters. *)
Definition JSON_quoteChar (c : ascii) : string :=
  let n := JS.code c in
  if (n =? 8)%N then "\b"
  else if (n =? 9)%N then "\t"
  else if (n =? 10)%N then "\n"
  else if (n =? 12)%N then "\f"
  else if (n =? 13)%N then "\r"
  else if (n =? 34)%N then String "\" (String c EmptyString)
  else if (n =? 92)%N then "\\"
  else if (n <? 32)%N
       then ("\u00" ++ JS.padStart 2 "0" (JS.toString16 (Z.of_N n)))%string
  else String c EmptyString.

Fixpoint JSON_quoteChars (s : string) : string :=
  match s with
  | String c r => (JSON_quoteChar c ++ JSON_quoteChars r)%string
  | EmptyString => EmptyString
  end.

Definition JSON_quote (s : string) : string :=
  let dq := String (ascii_of_nat 34) EmptyString in
  (dq ++ JSON_quoteChars s ++ dq)%string.

(** [JSON.stringify({ colors })] for an array of strings. *)
Definition JSON_stringify_colors (colors : list string) : string :=
  ("{" ++ JSON_quote "colors" ++ ":[" ++ Array_join "," (map JSON_quote colors)
   ++ "]}")%string.

(** [applyPalette], on the storage the two views share; the navigation is
    not part of the state. *)
Definition applyPalette (item : SavedPaletteItem) (storage : gmap string string)
  : gmap string string :=
  <[ ACTIVE_PALETTE_KEY := JSON_stringify_colors (item_colors item) ]> storage.

(** ** The export view *)

Definition newline : string := String (ascii_of_nat 10) EmptyString.

(** [c.startsWith('#') ? c : `#${c}`] *)
Definition exportHex (c : string) : string :=
  if JS.startsWith c "#" then c else ("#" ++ c)%string.

Definition cssLine (idx : nat) (c : string) : string :=
  ("  --color-" ++ JS.toString10 (Z.of_nat idx + 1) ++ ": " ++ exportHex c ++ ";")%string.

(** [cssVariables] *)
Definition cssVariables (colors : list string) : string :=
  Array_join newline ([":root {"] ++ imap cssLine colors ++ ["}"]).

Definition scssLine (idx : nat) (c : string) : string :=
  ("$color-" ++ JS.toString10 (Z.of_nat idx + 1) ++ ": " ++ exportHex c ++ ";")%string.

(** [scssVariables] *)
Definition scssVariables (colors : list string) : string :=
  Array_join newline (imap scssLine colors).

(** ** Further predicates of the statements *)

(** One channel below 256, written by [toString(16)] and [padStart] and read
    back by [parseInt]. *)
Definition byteCheck (n : nat) : bool :=
  match JS.padStart 2 "0" (JS.toString16 (Z.of_nat n)) with
  | String c1 (String c2 EmptyString) =>
      JS.isHexDigit c1 && JS.isHexDigit c2 &&
      negb (Ascii.eqb c1 "#") && negb (Ascii.eqb c2 "#") &&
      match JS.parseInt16 (String c1 (String c2 EmptyString)) with
      | Some v => v =? Z.of_nat n
      | None => false
      end
  | _ => false
  end.

(** A string of decimal digits only. *)
Fixpoint allDigits (s : string) : bool :=
  match s with
  | String c r => JS.isDigit c && allDigits r
  | EmptyString => true
  end.

(** A string that does not go on with a digit. *)
Definition stops (s : string) : Prop :=
  match s with
  | String c _ => JS.isDigit c = false
  | EmptyString => True
  end.

(** One channel below 256 written in decimal: digits only, the first of them
    no white space, and [Number] reads the value back. *)
Definition decCheck (n : nat) : bool :=
  let s := JS.toString10 (Z.of_nat n) in
  allDigits s &&
  match s with
  | String c _ => negb (JS.isWhiteSpace c)
  | EmptyString => false
  end &&
  match fst (Pattern.digitsFrom s None) with
  | Some v => v =? Z.of_nat n
  | None => false
  end.

(** A string in which the character [x] does not occur. *)
Fixpoint noChar (x : ascii) (s : string) : bool :=
  match s with
  | String c r => negb (Ascii.eqb c x) && noChar x r
  | EmptyString => true
  end.

(** The levels in their order: none, AA, AAA. *)
Definition levelRank (l : AccessibilityLevel) : nat :=
  match l with
  | AAA => 2
  | AA => 1
  | none => 0
  end.

(** A tag as [saveEdit] writes it: not empty, trimmed and without a comma. *)
Definition wellFormedTag (t : string) : Prop :=
  t <> "" /\ JS.trim t = t /\ noChar "," t = true.

(** Lowering a character keeps whether it is white space. *)
Definition whiteSpaceKept (c : ascii) : bool :=
  Bool.eqb (JS.isWhiteSpace (JS.lowerChar c)) (JS.isWhiteSpace c).

(** The order of [sort] on strings: by code units. *)
Definition ascending (a b : string) : Prop := String.leb a b = true.

(** The character of [newline]. *)
Definition lineBreak : ascii := ascii_of_nat 10.

(** A string without a line break. *)
Definition oneLine (s : string) : Prop := noChar lineBreak s = true.

(** * Properties *)

Example parseHexToRgb_ff8800 : parseHexToRgb "ff8800" = Some (mkRgb 255 136 0).
Proof. reflexivity. Qed.

Example rgbToHex_255_136_0 : rgbToHex 255 136 0 = "ff8800".
Proof. reflexivity. Qed.

Example parseHexToRgb_prefix : parseHexToRgb "1g0000" = Some (mkRgb 1 0 0).
Proof. reflexivity. Qed.

Example split_trailing : JS.split ","%char "a, b,,c," = ["a"; " b"; ""; "c"; ""].
Proof. reflexivity. Qed.

Example trim_both : JS.trim "  a b  " = "a b".
Proof. reflexivity. Qed.

Example toString10_120 : JS.toString10 120 = "120".
Proof. reflexivity. Qed.

(** ** The order of binary64 values *)

Module NumFacts.

Import NumOrder.

Lemma SFcompare_key x y : SFcompare x y = keycmp x y.
Proof.
  unfold keycmp.
  destruct x as [sx|sx| |sx mx ex], y as [sy|sy| |sy my ey]; simpl;
    try reflexivity;
    repeat match goal with s : bool |- _ => destruct s end;
    simpl; try reflexivity.
  rewrite Z.compare_opp. rewrite (Z.compare_antisym ex ey).
  destruct (ex ?= ey); reflexivity.
Qed.

Lemma lexcmp_Lt a b :
  lexcmp a b = Lt <->
  (a.1.1 < b.1.1 \/ (a.1.1 = b.1.1 /\ (a.1.2 < b.1.2 \/ (a.1.2 = b.1.2 /\ a.2 < b.2)))).
Proof.
  destruct a as [[a1 a2] a3], b as [[b1 b2] b3]; simpl.
  destruct (Z.compare_spec a1 b1), (Z.compare_spec a2 b2), (Z.compare_spec a3 b3);
    split; intros; try discriminate; try reflexivity; lia.
Qed.

Lemma lexcmp_Eq a b : lexcmp a b = Eq <-> a = b.
Proof.
  destruct a as [[a1 a2] a3], b as [[b1 b2] b3]; simpl.
  destruct (Z.compare_spec a1 b1), (Z.compare_spec a2 b2), (Z.compare_spec a3 b3);
    split; intros; try discriminate; try reflexivity;
    try (exfalso; congruence || lia);
    match goal with H : (_, _, _) = (_, _, _) |- _ => inversion H; lia
                  | _ => subst; reflexivity end.
Qed.

Lemma lexcmp_Gt a b : lexcmp a b = Gt <-> lexcmp b a = Lt.
Proof.
  rewrite lexcmp_Lt.
  destruct a as [[a1 a2] a3], b as [[b1 b2] b3]; simpl.
  destruct (Z.compare_spec a1 b1), (Z.compare_spec a2 b2), (Z.compare_spec a3 b3);
    split; intros; try discriminate; try reflexivity; lia.
Qed.

Lemma ltb_klt x y : (x <? y)%float = true <-> klt x y.
Proof.
  rewrite FloatAxioms.ltb_spec. unfold SFltb, klt. rewrite SFcompare_key. unfold keycmp.
  destruct (key (Prim2SF x)) as [a|], (key (Prim2SF y)) as [b|]; split;
    try discriminate; try (intros (a' & b' & ? & ? & ?); discriminate).
  - destruct (lexcmp a b) eqn:E; try discriminate.
    intros _. exists a, b. auto.
  - intros (a' & b' & Ha & Hb & E). inversion Ha; inversion Hb; subst.
    rewrite E. reflexivity.
Qed.

Lemma leb_kle x y : (x <=? y)%float = true <-> kle x y.
Proof.
  rewrite FloatAxioms.leb_spec. unfold SFleb, kle. rewrite SFcompare_key. unfold keycmp.
  destruct (key (Prim2SF x)) as [a|], (key (Prim2SF y)) as [b|]; split;
    try discriminate; try (intros (a' & b' & ? & ? & ?); discriminate).
  - destruct (lexcmp a b) eqn:E; try discriminate; intros _; exists a, b;
      repeat split; trivial; intros E'.
    + apply lexcmp_Eq in E. subst. apply lexcmp_Lt in E'. lia.
    + apply lexcmp_Lt in E. apply lexcmp_Lt in E'. lia.
  - intros (a' & b' & Ha & Hb & E). inversion Ha; inversion Hb; subst.
    destruct (lexcmp a' b') eqn:E'; try reflexivity.
    apply lexcmp_Gt in E'. contradiction.
Qed.

Lemma is_nan_key x : is_nan x = false <-> exists a, key (Prim2SF x) = Some a.
Proof.
  unfold is_nan. rewrite FloatAxioms.eqb_spec. unfold SFeqb. rewrite SFcompare_key.
  unfold keycmp. destruct (key (Prim2SF x)) as [a|]; split.
  - intros _. exists a. reflexivity.
  - intros _. assert (E : lexcmp a a = Eq) by (apply lexcmp_Eq; reflexivity).
    rewrite E. reflexivity.
  - discriminate.
  - intros (a & ?). discriminate.
Qed.

Lemma ltb_trans x y z :
  (x <? y)%float = true -> (y <? z)%float = true -> (x <? z)%float = true.
Proof.
  rewrite !ltb_klt.
  intros (a & b & Ha & Hb & E1) (b' & c & Hb' & Hc & E2).
  rewrite Hb in Hb'. inversion Hb'; subst b'.
  exists a, c. repeat split; trivial.
  apply lexcmp_Lt in E1. apply lexcmp_Lt in E2. apply lexcmp_Lt. lia.
Qed.

Lemma ltb_leb_trans x y z :
  (x <? y)%float = true -> (y <=? z)%float = true -> (x <? z)%float = true.
Proof.
  rewrite !ltb_klt, leb_kle.
  intros (a & b & Ha & Hb & E1) (b' & c & Hb' & Hc & E2).
  rewrite Hb in Hb'. inversion Hb'; subst b'.
  exists a, c. repeat split; trivial.
  apply lexcmp_Lt in E1. rewrite lexcmp_Lt in E2. apply lexcmp_Lt. lia.
Qed.

Lemma ltb_asym x y : (x <? y)%float = true -> (y <? x)%float = false.
Proof.
  intros H. destruct (y <? x)%float eqn:E; trivial.
  apply ltb_klt in H. apply ltb_klt in E.
  destruct H as (a & b & Ha & Hb & E1), E as (b' & a' & Hb' & Ha' & E2).
  rewrite Hb in Hb'. rewrite Ha in Ha'. inversion Hb'; inversion Ha'; subst.
  apply lexcmp_Lt in E1. apply lexcmp_Lt in E2. lia.
Qed.

Lemma not_ltb_leb x y :
  is_nan x = false -> is_nan y = false ->
  (x <? y)%float = false -> (y <=? x)%float = true.
Proof.
  intros Hx Hy H. apply is_nan_key in Hx. apply is_nan_key in Hy.
  destruct Hx as (a & Ha), Hy as (b & Hb).
  apply leb_kle. exists b, a. repeat split; trivial.
  intros E. assert (K : klt x y) by (exists a, b; auto).
  apply ltb_klt in K. congruence.
Qed.

Lemma Leibniz_eqb_sym x y : PrimFloat.Leibniz.eqb x y = PrimFloat.Leibniz.eqb y x.
Proof.
  destruct (PrimFloat.Leibniz.eqb x y) eqn:E1, (PrimFloat.Leibniz.eqb y x) eqn:E2;
    trivial.
  - apply FloatAxioms.Leibniz.eqb_spec in E1. subst.
    assert (K : PrimFloat.Leibniz.eqb y y = true)
      by (apply FloatAxioms.Leibniz.eqb_spec; reflexivity).
    congruence.
  - apply FloatAxioms.Leibniz.eqb_spec in E2. subst.
    assert (K : PrimFloat.Leibniz.eqb x x = true)
      by (apply FloatAxioms.Leibniz.eqb_spec; reflexivity).
    congruence.
Qed.

Lemma Math_max_comm a b : Num.Math_max a b = Num.Math_max b a.
Proof.
  unfold Num.Math_max. rewrite (orb_comm (is_nan a)).
  destruct (is_nan b || is_nan a); trivial.
  destruct (a <? b)%float eqn:E1.
  - rewrite (ltb_asym _ _ E1). reflexivity.
  - destruct (b <? a)%float eqn:E2; trivial.
    rewrite (Leibniz_eqb_sym b a).
    destruct (PrimFloat.Leibniz.eqb a b) eqn:E; trivial.
    apply FloatAxioms.Leibniz.eqb_spec in E. congruence.
Qed.

Lemma Math_min_comm a b : Num.Math_min a b = Num.Math_min b a.
Proof.
  unfold Num.Math_min. rewrite (orb_comm (is_nan a)).
  destruct (is_nan b || is_nan a); trivial.
  destruct (a <? b)%float eqn:E1.
  - rewrite (ltb_asym _ _ E1). reflexivity.
  - destruct (b <? a)%float eqn:E2; trivial.
    rewrite (Leibniz_eqb_sym b a).
    destruct (PrimFloat.Leibniz.eqb a b) eqn:E; trivial.
    apply FloatAxioms.Leibniz.eqb_spec in E. congruence.
Qed.

End NumFacts.

(** [contrastRatio(a, b) = contrastRatio(b, a)] *)
Lemma getContrastRatio_comm l1 l2 : getContrastRatio l1 l2 = getContrastRatio l2 l1.
Proof.
  unfold getContrastRatio.
  rewrite (NumFacts.Math_max_comm l1 l2), (NumFacts.Math_min_comm l1 l2).
  reflexivity.
Qed.

(** ** The random source *)

Lemma bind_Some {A B} (m : Rand A) (k : A -> Rand B) src b src' :
  bind m k src = Some (b, src') <->
  exists a src1, m src = Some (a, src1) /\ k a src1 = Some (b, src').
Proof.
  unfold bind. destruct (m src) as [[a src1]|]; split.
  - intros H. exists a, src1. auto.
  - intros (a' & s' & E & H). inversion E; subst. exact H.
  - discriminate.
  - intros (a' & s' & E & _). discriminate.
Qed.

Lemma ret_Some {A} (a b : A) src src' :
  ret a src = Some (b, src') <-> a = b /\ src = src'.
Proof.
  unfold ret. split.
  - intros H. inversion H. auto.
  - intros [-> ->]. reflexivity.
Qed.

Lemma Qfloor_scaled u n :
  unit_sample u -> 0 < n -> 0 <= Qfloor (u * inject_Z n) < n.
Proof.
  intros [H0 H1] Hn.
  assert (Hq : (0 < inject_Z n)%Q) by (rewrite (Zlt_Qlt 0 n) in Hn; exact Hn).
  split.
  - change 0 with (Qfloor (inject_Z 0)) at 1. apply Qfloor_resp_le.
    apply Qmult_le_0_compat; [exact H0 | apply Qlt_le_weak; exact Hq].
  - rewrite Zlt_Qlt. eapply Qle_lt_trans; [apply Qfloor_le|].
    apply Qlt_le_trans with (1 * inject_Z n)%Q.
    + apply Qmult_lt_compat_r; assumption.
    + rewrite Qmult_1_l. apply Qle_refl.
Qed.

(** [getRandomInt(min, max)] lies in [[min, max]]. *)
Lemma getRandomInt_range min max src v src' :
  Forall unit_sample src -> min <= max ->
  getRandomInt min max src = Some (v, src') ->
  min <= v <= max /\ Forall unit_sample src' /\ (List.length src' < List.length src)%nat.
Proof.
  intros Hs Hm H. unfold getRandomInt, Math_random, bind, ret in H.
  destruct src as [|u rest]; [discriminate|].
  cbv beta iota in H. injection H as <- <-. inversion Hs; subst.
  pose proof (Qfloor_scaled u (max - min + 1) ltac:(assumption) ltac:(lia)) as K.
  split; [|split; [assumption | simpl; lia]].
  change (min <= Qfloor (u * inject_Z (max - min + 1)) + min <= max). lia.
Qed.

Section Generator.

Variable Math_pow : float -> float -> float.

Lemma getRandomAaaRgbColor_loop_spec fuel src c src' :
  Forall unit_sample src ->
  getRandomAaaRgbColor_loop Math_pow fuel src = Some (c, src') ->
  accepted Math_pow c /\ Forall unit_sample src' /\ (List.length src' < List.length src)%nat.
Proof.
  revert src. induction fuel as [|fuel IH]; intros src Hs H; [discriminate|].
  cbn [getRandomAaaRgbColor_loop] in H.
  apply bind_Some in H. destruct H as (rv & s1 & Hr & H).
  apply bind_Some in H. destruct H as (gv & s2 & Hg & H).
  apply bind_Some in H. destruct H as (bv & s3 & Hb & H).
  destruct (getRandomInt_range 0 120 _ _ _ Hs ltac:(lia) Hr) as (Rr & Hs1 & L1).
  destruct (getRandomInt_range 0 120 _ _ _ Hs1 ltac:(lia) Hg) as (Rg & Hs2 & L2).
  destruct (getRandomInt_range 0 120 _ _ _ Hs2 ltac:(lia) Hb) as (Rb & Hs3 & L3).
  destruct (isAaaContrastWithWhite Math_pow rv gv bv) eqn:E.
  - apply ret_Some in H. destruct H as [<- <-].
    repeat split; simpl; try lia; assumption.
  - destruct (IH _ Hs3 H) as (Ha & Hs' & L). repeat split; try apply Ha; trivial. lia.
Qed.

Lemma getRandomAaaRgbColor_spec src c src' :
  Forall unit_sample src ->
  getRandomAaaRgbColor Math_pow src = Some (c, src') ->
  accepted Math_pow c /\ Forall unit_sample src'.
Proof.
  intros Hs H. unfold getRandomAaaRgbColor in H.
  destruct (getRandomAaaRgbColor_loop_spec _ _ _ _ Hs H) as (? & ? & _). auto.
Qed.

Lemma getRandomAaaRgbColor_loop_step fuel u1 u2 u3 rest :
  getRandomAaaRgbColor_loop Math_pow (S fuel) (u1 :: u2 :: u3 :: rest) =
  if isAaaContrastWithWhite Math_pow (channelOf u1) (channelOf u2) (channelOf u3)
  then Some (mkRgb (channelOf u1) (channelOf u2) (channelOf u3), rest)
  else getRandomAaaRgbColor_loop Math_pow fuel rest.
Proof.
  change (getRandomAaaRgbColor_loop Math_pow (S fuel) (u1 :: u2 :: u3 :: rest))
    with ((if isAaaContrastWithWhite Math_pow (channelOf u1) (channelOf u2)
                (channelOf u3)
           then ret (mkRgb (channelOf u1) (channelOf u2) (channelOf u3))
           else getRandomAaaRgbColor_loop Math_pow fuel) rest).
  destruct (isAaaContrastWithWhite Math_pow _ _ _); reflexivity.
Qed.

Lemma getRandomAaaRgbColor_loop_short fuel src :
  (List.length src < 3)%nat -> getRandomAaaRgbColor_loop Math_pow fuel src = None.
Proof.
  intros H. destruct fuel; [reflexivity|].
  destruct src as [|u1 [|u2 [|u3 rest]]]; try reflexivity.
  simpl in H. lia.
Qed.

(** The fuel of [getRandomAaaRgbColor] never runs out before the samples. *)
Lemma getRandomAaaRgbColor_loop_fuel fuel src :
  (List.length src < fuel)%nat ->
  getRandomAaaRgbColor_loop Math_pow fuel src = getRandomAaaRgbColor Math_pow src.
Proof.
  unfold getRandomAaaRgbColor.
  remember (S (List.length src)) as n eqn:En.
  assert (Hn : (List.length src < n)%nat) by lia. clear En.
  revert src n Hn. induction fuel as [|fuel IH]; intros src n Hn Hf; [lia|].
  destruct n as [|n]; [lia|].
  destruct src as [|u1 [|u2 [|u3 rest]]];
    try (rewrite !getRandomAaaRgbColor_loop_short by (simpl; lia); reflexivity).
  rewrite !getRandomAaaRgbColor_loop_step.
  destruct (isAaaContrastWithWhite Math_pow _ _ _); [reflexivity|].
  apply IH; simpl in *; lia.
Qed.

Lemma generateRandomPaletteValues_loop_spec type n acc src values src' :
  Forall unit_sample src ->
  generateRandomPaletteValues_loop Math_pow type n acc src = Some (values, src') ->
  exists fresh, values = (acc ++ fresh)%list /\ List.length fresh = n /\
                Forall (generated Math_pow type) fresh /\ Forall unit_sample src'.
Proof.
  revert acc src. induction n as [|n IH]; intros acc src Hs H.
  - apply ret_Some in H. destruct H as [<- <-].
    exists []. rewrite app_nil_r. repeat split; trivial.
  - cbn [generateRandomPaletteValues_loop] in H.
    apply bind_Some in H. destruct H as (c & s1 & Hc & H).
    destruct (getRandomAaaRgbColor_spec _ _ _ Hs Hc) as (Ha & Hs1).
    destruct (IH _ _ Hs1 H) as (fresh & -> & L & F & Hs').
    exists (encodeColor type c :: fresh). rewrite <- app_assoc.
    repeat split; simpl; trivial; [lia|].
    constructor; [exists c; auto | exact F].
Qed.

Lemma generateRandomPaletteValues_spec type length src values src' :
  Forall unit_sample src ->
  generateRandomPaletteValues Math_pow type length src = Some (values, src') ->
  List.length values = Z.to_nat length /\ Forall (generated Math_pow type) values /\
  Forall unit_sample src'.
Proof.
  intros Hs H. unfold generateRandomPaletteValues in H.
  destruct (generateRandomPaletteValues_loop_spec _ _ _ _ _ _ Hs H)
    as (fresh & -> & L & F & Hs').
  auto.
Qed.

(** Black passes the test whatever [Math.pow] is: its channels stay on the
    linear branch. *)
Lemma black_accepted : isAaaContrastWithWhite Math_pow 0 0 0 = true.
Proof. vm_compute. reflexivity. Qed.

Lemma getRandomAaaRgbColor_black rest :
  getRandomAaaRgbColor Math_pow (0%Q :: 0%Q :: 0%Q :: rest) = Some (black, rest).
Proof.
  unfold getRandomAaaRgbColor. cbn [List.length].
  rewrite getRandomAaaRgbColor_loop_step.
  change (channelOf 0%Q) with 0. rewrite black_accepted. reflexivity.
Qed.

Lemma generateRandomPaletteValues_loop_black type n acc rest :
  generateRandomPaletteValues_loop Math_pow type n acc (blackSource n ++ rest) =
  Some ((acc ++ repeat (encodeColor type black) n)%list, rest).
Proof.
  revert acc. induction n as [|n IH]; intros acc.
  - cbn. rewrite app_nil_r. reflexivity.
  - unfold blackSource. replace (3 * S n)%nat with (S (S (S (3 * n)))) by lia.
    cbn [repeat app generateRandomPaletteValues_loop]. unfold bind.
    rewrite getRandomAaaRgbColor_black. fold (blackSource n).
    rewrite IH. rewrite <- app_assoc. reflexivity.
Qed.

(** Every requested count is delivered by a source that has enough accepted
    samples. *)
Lemma generateRandomPaletteValues_black type length rest :
  generateRandomPaletteValues Math_pow type length
    (blackSource (Z.to_nat length) ++ rest) =
  Some (repeat (encodeColor type black) (Z.to_nat length), rest).
Proof.
  unfold generateRandomPaletteValues.
  rewrite generateRandomPaletteValues_loop_black. reflexivity.
Qed.

Lemma blackSource_unit n : Forall unit_sample (blackSource n).
Proof.
  unfold blackSource. induction (3 * n)%nat as [|k IH]; simpl; constructor; trivial.
  split; [apply Qle_refl | reflexivity].
Qed.

End Generator.

(** ** The constrained generator *)

(** C2. Every colour the generator hands out, for any requested count and in
    either encoding, has its three channels in [[0, 120]] and a contrast
    ratio against white (luminance 1) of at least 7; the generator hands out
    exactly the requested number of colours. *)
Theorem generated_colors_contrast_AAA
    (Math_pow : float -> float -> float) (type : ColorCodeType) (length : Z)
    (src : list Q) (values : list string) (src' : list Q) :
  Forall unit_sample src ->
  generateRandomPaletteValues Math_pow type length src = Some (values, src') ->
  List.length values = Z.to_nat length /\
  Forall (fun v => exists c,
            v = encodeColor type c /\
            0 <= r c <= 120 /\ 0 <= g c <= 120 /\ 0 <= b c <= 120 /\
            (7 <=? getContrastRatio
                     (getRelativeLuminance Math_pow (r c) (g c) (b c)) 1)%float
            = true) values.
Proof.
  intros Hs H.
  destruct (generateRandomPaletteValues_spec _ _ _ _ _ _ Hs H) as (L & F & _).
  split; [exact L|]. clear L H.
  induction F as [|v vs (c & -> & Hr & Hg & Hb & Ha) _ IH]; constructor; trivial.
  exists c. split; [reflexivity|]. do 3 (split; [lia|]).
  rewrite getContrastRatio_comm. exact Ha.
Qed.

Lemma generated_colors_contrast_AAA_witness :
  Forall (fun v => exists c,
            v = encodeColor RGB c /\
            0 <= r c <= 120 /\ 0 <= g c <= 120 /\ 0 <= b c <= 120 /\
            (7 <=? getContrastRatio
                     (getRelativeLuminance Sample.Math_pow (r c) (g c) (b c)) 1)%float
            = true) ["rgb(30, 12, 40)"; "rgb(108, 60, 90)"].
Proof.
  refine (proj2 (generated_colors_contrast_AAA Sample.Math_pow RGB 2 sampleSource
                   ["rgb(30, 12, 40)"; "rgb(108, 60, 90)"] [0; 1#121; 5#121]%Q _ _)).
  - repeat constructor; discriminate.
  - vm_compute. reflexivity.
Defined.

(** ** The palette engine *)

Lemma Array_slice0_nonneg {A} (l : list A) n :
  0 <= n -> Array_slice0 l n = firstn (Z.to_nat n) l.
Proof.
  intros H. unfold Array_slice0.
  destruct (Z.ltb_spec n 0); [lia | reflexivity].
Qed.

Lemma pushPinned_spec cs result :
  pushPinned cs result = result ++ List.filter isPinned cs.
Proof.
  revert result. induction cs as [|c cs IH]; intros result; simpl.
  - rewrite app_nil_r. reflexivity.
  - rewrite IH. destruct (isPinned c); [rewrite <- app_assoc|]; reflexivity.
Qed.

Lemma skipn_nth_error {A} (l : list A) i v :
  nth_error l i = Some v -> skipn i l = v :: skipn (S i) l.
Proof.
  revert i. induction l as [|x l IH]; intros [|i] H; simpl in *; try discriminate.
  - injection H as ->. reflexivity.
  - apply IH. exact H.
Qed.

Lemma pushFresh_spec cs newValues i result :
  pushFresh cs newValues i result =
  result ++ map unpinned (firstn (List.length (loose cs)) (skipn i newValues)).
Proof.
  revert i result. induction cs as [|c cs IH]; intros i result; simpl.
  - rewrite app_nil_r. reflexivity.
  - unfold loose. simpl. destruct (isPinned c); simpl; [apply IH|].
    destruct (Nat.ltb_spec i (List.length newValues)) as [Hi|Hi].
    + destruct (nth_error newValues i) as [v|] eqn:E.
      * rewrite IH. rewrite (skipn_nth_error _ _ _ E). simpl.
        rewrite <- app_assoc. reflexivity.
      * apply nth_error_None in E. lia.
    + rewrite IH. rewrite (skipn_all2 newValues) by lia.
      rewrite !firstn_nil. reflexivity.
Qed.

Lemma generateRandomPaletteValues_loop_length Math_pow type n acc src values src' :
  generateRandomPaletteValues_loop Math_pow type n acc src = Some (values, src') ->
  List.length values = (List.length acc + n)%nat.
Proof.
  revert acc src. induction n as [|n IH]; intros acc src H.
  - apply ret_Some in H. destruct H as [<- _]. lia.
  - cbn [generateRandomPaletteValues_loop] in H.
    apply bind_Some in H. destruct H as (c & s1 & _ & H).
    apply IH in H. rewrite H, length_app. simpl. lia.
Qed.

Lemma generateRandomPaletteValues_length Math_pow type length src values src' :
  generateRandomPaletteValues Math_pow type length src = Some (values, src') ->
  List.length values = Z.to_nat length.
Proof.
  intros H. apply generateRandomPaletteValues_loop_length in H. exact H.
Qed.

Lemma fillToSize_shape Math_pow fuel type size result src res src' :
  fillToSize Math_pow fuel type size result src = Some (res, src') ->
  exists extras,
    res = result ++ map unpinned extras /\
    Z.of_nat (List.length res) = Z.max size (Z.of_nat (List.length result)).
Proof.
  revert result src. induction fuel as [|fuel IH]; intros result src H;
    cbn [fillToSize] in H;
    destruct (Z.ltb_spec (Z.of_nat (List.length result)) size) as [Hl|Hl];
    try discriminate;
    try (apply ret_Some in H; destruct H as [<- _]; exists [];
         rewrite app_nil_r; split; [reflexivity | lia]).
  apply bind_Some in H. destruct H as (extra & s1 & He & H).
  apply generateRandomPaletteValues_length in He.
  destruct extra as [|v extra]; [discriminate|]. cbn [nth_error] in H.
  destruct (IH _ _ H) as (extras & -> & L).
  exists (v :: extras). split; [rewrite <- app_assoc; reflexivity|].
  rewrite L, length_app. simpl. lia.
Qed.

Lemma fillToSize_full Math_pow fuel type size result :
  size <= Z.of_nat (List.length result) ->
  fillToSize Math_pow fuel type size result = ret result.
Proof.
  intros H. destruct fuel; cbn [fillToSize];
    destruct (Z.ltb_spec (Z.of_nat (List.length result)) size); try lia; reflexivity.
Qed.

(** The fuel of the third loop never runs out before the samples: any fuel
    that covers the entries still missing gives the same result. *)
Lemma fillToSize_fuel Math_pow type size fuel1 fuel2 result src :
  (Z.to_nat (size - Z.of_nat (List.length result)) <= fuel1)%nat ->
  (Z.to_nat (size - Z.of_nat (List.length result)) <= fuel2)%nat ->
  fillToSize Math_pow fuel1 type size result src =
  fillToSize Math_pow fuel2 type size result src.
Proof.
  revert fuel2 result src.
  induction fuel1 as [|fuel1 IH]; intros fuel2 result src H1 H2.
  - rewrite !fillToSize_full by lia. reflexivity.
  - destruct (Z.ltb_spec (Z.of_nat (List.length result)) size) as [Hl|Hl];
      [|rewrite !fillToSize_full by lia; reflexivity].
    destruct fuel2 as [|fuel2]; [lia|].
    cbn [fillToSize]. destruct (Z.ltb_spec (Z.of_nat (List.length result)) size); [|lia].
    unfold bind.
    destruct (generateRandomPaletteValues Math_pow type 1 src) as [[extra s1]|] eqn:G;
      [|reflexivity].
    apply generateRandomPaletteValues_length in G.
    destruct extra as [|v extra]; [discriminate|]. cbn [nth_error].
    apply IH; rewrite length_app; simpl; lia.
Qed.

Lemma filter_pinned_unpinned vs : List.filter isPinned (map unpinned vs) = [].
Proof. induction vs; simpl; trivial. Qed.

Lemma filter_pinned_idem cs :
  List.filter isPinned (List.filter isPinned cs) = List.filter isPinned cs.
Proof.
  induction cs as [|c cs IH]; simpl; trivial.
  destruct (isPinned c) eqn:E; simpl; rewrite ?E, IH; reflexivity.
Qed.

Lemma length_pinned_loose cs :
  List.length cs = (List.length (List.filter isPinned cs) + List.length (loose cs))%nat.
Proof.
  unfold loose. induction cs as [|c cs IH]; simpl; trivial.
  destruct (isPinned c); simpl; lia.
Qed.

(** What [generateNewPalette] builds when the pinned entries fit in the
    configured size: the pinned entries first, then new entries that are not
    pinned, up to the size. *)
Lemma generateNewPalette_shape Math_pow st src st' src' :
  Z.of_nat (List.length (List.filter isPinned (colors st))) <= paletteSize st ->
  generateNewPalette Math_pow st src = Some (st', src') ->
  exists fresh,
    colors st' = List.filter isPinned (colors st) ++ map unpinned fresh /\
    Z.of_nat (List.length (colors st')) = paletteSize st /\
    st' = set_colors st (colors st').
Proof.
  intros Hp H. unfold generateNewPalette in H.
  apply bind_Some in H. destruct H as (newValues & s1 & Hn & H).
  apply bind_Some in H. destruct H as (res & s2 & Hf & H).
  apply ret_Some in H. destruct H as [<- <-].
  apply generateRandomPaletteValues_length in Hn.
  rewrite pushPinned_spec, pushFresh_spec in Hf.
  change (skipn 0 newValues) with newValues in Hf. cbn [app] in Hf.
  set (P := List.filter isPinned (colors st)) in *.
  set (F1 := firstn (List.length (loose (colors st))) newValues) in *.
  apply fillToSize_shape in Hf. destruct Hf as (extras & -> & L).
  assert (Hk : (List.length F1 <= List.length newValues)%nat)
    by (unfold F1; rewrite length_firstn; lia).
  rewrite !length_app, !length_map in L.
  assert (Hs : 0 <= paletteSize st) by lia.
  rewrite Array_slice0_nonneg by exact Hs.
  rewrite firstn_all2 by (rewrite !length_app, !length_map; lia).
  exists (F1 ++ extras).
  cbn [colors set_colors]. rewrite map_app, <- app_assoc.
  split; [reflexivity|]. split; [|reflexivity].
  rewrite !length_app, !length_map. lia.
Qed.

Lemma blackSource_S k rest :
  blackSource (S k) ++ rest = blackSource 1 ++ (blackSource k ++ rest).
Proof.
  unfold blackSource. replace (3 * S k)%nat with (3 + 3 * k)%nat by lia.
  rewrite repeat_app, <- app_assoc. reflexivity.
Qed.

Lemma fillToSize_black Math_pow type size k result rest :
  k = Z.to_nat (size - Z.of_nat (List.length result)) ->
  fillToSize Math_pow k type size result (blackSource k ++ rest) =
  Some (result ++ map unpinned (repeat (encodeColor type black) k), rest).
Proof.
  revert result. induction k as [|k IH]; intros result Hk; cbn [fillToSize].
  - destruct (Z.ltb_spec (Z.of_nat (List.length result)) size); [lia|].
    cbn. rewrite app_nil_r. reflexivity.
  - destruct (Z.ltb_spec (Z.of_nat (List.length result)) size); [|lia].
    unfold bind. rewrite blackSource_S.
    rewrite (generateRandomPaletteValues_black Math_pow type 1).
    change (Z.to_nat 1) with 1%nat. cbn [repeat nth_error].
    rewrite IH by (rewrite length_app; simpl; lia).
    rewrite <- app_assoc. reflexivity.
Qed.

(** [generateNewPalette] returns on a source with enough accepted samples. *)
Lemma generateNewPalette_completes Math_pow st rest :
  exists src st', generateNewPalette Math_pow st (src ++ rest) = Some (st', rest).
Proof.
  set (needed := Z.max 0 (paletteSize st -
                   Z.of_nat (List.length (List.filter isPinned (colors st))))).
  set (newValues := repeat (encodeColor (format st) black) (Z.to_nat needed)).
  set (result := pushFresh (colors st) newValues 0 (pushPinned (colors st) [])).
  set (k := Z.to_nat (paletteSize st - Z.of_nat (List.length result))).
  exists (blackSource (Z.to_nat needed) ++ blackSource k). eexists.
  unfold generateNewPalette. fold needed. unfold bind at 1.
  rewrite <- app_assoc, generateRandomPaletteValues_black.
  fold newValues. fold result. fold k. unfold bind.
  rewrite fillToSize_black by reflexivity. reflexivity.
Qed.

(** [handleChangeSize] returns on a source with enough accepted samples. *)
Lemma handleChangeSize_completes Math_pow n st rest :
  exists src st', handleChangeSize Math_pow n st (src ++ rest) = Some (st', rest).
Proof.
  unfold handleChangeSize, ensurePaletteSize. cbn [colors paletteSize set_paletteSize format].
  destruct (Z.ltb_spec (Z.of_nat (List.length (colors st))) n).
  - exists (blackSource (Z.to_nat (n - Z.of_nat (List.length (colors st))))). eexists.
    unfold bind. rewrite generateRandomPaletteValues_black. reflexivity.
  - exists []. destruct (Z.ltb_spec n (Z.of_nat (List.length (colors st))));
      eexists; reflexivity.
Qed.






(** C1 (as amended). For a palette whose length is the configured size,
    regeneration puts the pinned entries, unchanged and in their order, at
    the front, and after them one new entry that is not pinned for every
    entry that was not pinned: the values of the batch the generator
    produced, in order. The length is kept. *)
Theorem regenerate_pinned_first
    (Math_pow : float -> float -> float) (st : State) (src : list Q)
    (st' : State) (src' : list Q) :
  Z.of_nat (List.length (colors st)) = paletteSize st ->
  generateNewPalette Math_pow st src = Some (st', src') ->
  exists newValues,
    generateRandomPaletteValues Math_pow (format st)
      (Z.of_nat (List.length (loose (colors st)))) src = Some (newValues, src') /\
    colors st' = List.filter isPinned (colors st) ++ map unpinned newValues /\
    List.length (colors st') = List.length (colors st).
Proof.
  intros Hw H. unfold generateNewPalette in H.
  pose proof (length_pinned_loose (colors st)) as Hl.
  replace (Z.max 0 (paletteSize st -
             Z.of_nat (List.length (List.filter isPinned (colors st)))))
    with (Z.of_nat (List.length (loose (colors st)))) in H by lia.
  apply bind_Some in H. destruct H as (newValues & s1 & Hn & H).
  pose proof (generateRandomPaletteValues_length _ _ _ _ _ _ Hn) as Ln.
  rewrite Nat2Z.id in Ln.
  rewrite pushPinned_spec, pushFresh_spec in H.
  change (skipn 0 newValues) with newValues in H. cbn [app] in H.
  rewrite firstn_all2 in H by lia.
  rewrite fillToSize_full in H by (rewrite length_app, length_map; lia).
  apply bind_Some in H. destruct H as (res & s2 & Hr & H).
  apply ret_Some in Hr. destruct Hr as [<- <-].
  apply ret_Some in H. destruct H as [<- <-].
  exists newValues. cbn [colors set_colors].
  rewrite Array_slice0_nonneg by lia.
  rewrite firstn_all2 by (rewrite length_app, length_map; lia).
  repeat split; trivial. rewrite length_app, length_map. lia.
Qed.

Lemma regenerate_pinned_first_witness :
  Z.of_nat (List.length (colors scenario)) = paletteSize scenario /\
  exists newValues,
    generateRandomPaletteValues Sample.Math_pow (format scenario)
      (Z.of_nat (List.length (loose (colors scenario)))) sampleSource
    = Some (newValues, [0; 1#121; 5#121]%Q) /\
    [pin "00ff00"; unpinned "1e0c28"; unpinned "6c3c5a"] =
    List.filter isPinned (colors scenario) ++ map unpinned newValues /\
    List.length [pin "00ff00"; unpinned "1e0c28"; unpinned "6c3c5a"] =
    List.length (colors scenario).
Proof.
  split; [reflexivity|].
  refine (regenerate_pinned_first Sample.Math_pow scenario sampleSource
            (set_colors scenario [pin "00ff00"; unpinned "1e0c28"; unpinned "6c3c5a"])
            [0; 1#121; 5#121]%Q _ _).
  - reflexivity.
  - vm_compute. reflexivity.
Defined.

(** C1, as stated, fails on the scenario palette: after regeneration the
    pinned [00ff00] is at index 0, and index 1, where it was, holds a new
    entry that is not pinned. *)
Lemma regenerate_keeps_index_counterexample :
  generateNewPalette Sample.Math_pow scenario sampleSource =
    Some (set_colors scenario [pin "00ff00"; unpinned "1e0c28"; unpinned "6c3c5a"],
          [0; 1#121; 5#121]%Q) /\
  nth_error (colors scenario) 1 = Some (pin "00ff00") /\
  nth_error [pin "00ff00"; unpinned "1e0c28"; unpinned "6c3c5a"] 1
    <> Some (pin "00ff00") /\
  ~ (forall st src st' src' i c,
       generateNewPalette Sample.Math_pow st src = Some (st', src') ->
       nth_error (colors st) i = Some c -> isPinned c = true ->
       nth_error (colors st') i = Some c).
Proof.
  assert (E : generateNewPalette Sample.Math_pow scenario sampleSource =
              Some (set_colors scenario
                      [pin "00ff00"; unpinned "1e0c28"; unpinned "6c3c5a"],
                    [0; 1#121; 5#121]%Q)) by (vm_compute; reflexivity).
  split; [exact E|]. split; [reflexivity|]. split; [discriminate|].
  intros K. specialize (K _ _ _ _ 1%nat (pin "00ff00") E eq_refl eq_refl).
  discriminate K.
Qed.

(** ** Resizing *)

(** C4. After a resize to [n] the palette has exactly [n] entries. A shorter
    palette gets the [n - length] values of one generated batch appended as
    entries that are not pinned; a longer one keeps its first [n] entries,
    pinned or not. *)
Theorem resize_length
    (Math_pow : float -> float -> float) (n : Z) (st : State) (src : list Q)
    (st' : State) (src' : list Q) :
  0 <= n ->
  handleChangeSize Math_pow n st src = Some (st', src') ->
  List.length (colors st') = Z.to_nat n /\
  paletteSize st' = n /\
  ((List.length (colors st) < Z.to_nat n)%nat ->
     exists fresh,
       generateRandomPaletteValues Math_pow (format st)
         (n - Z.of_nat (List.length (colors st))) src = Some (fresh, src') /\
       List.length fresh = (Z.to_nat n - List.length (colors st))%nat /\
       colors st' = colors st ++ map unpinned fresh) /\
  ((Z.to_nat n <= List.length (colors st))%nat ->
     colors st' = firstn (Z.to_nat n) (colors st) /\ src' = src).
Proof.
  intros Hn H. unfold handleChangeSize, ensurePaletteSize in H.
  cbn [colors paletteSize format set_paletteSize] in H.
  destruct (Z.ltb_spec (Z.of_nat (List.length (colors st))) n) as [Hl|Hl].
  - apply bind_Some in H. destruct H as (fresh & s1 & Hg & H).
    apply ret_Some in H. destruct H as [<- <-].
    pose proof (generateRandomPaletteValues_length _ _ _ _ _ _ Hg) as Lf.
    cbn [colors paletteSize set_colors set_paletteSize].
    rewrite length_app, length_map.
    split; [lia|]. split; [reflexivity|]. split; [|lia].
    intros _. exists fresh. repeat split; trivial. lia.
  - destruct (Z.ltb_spec n (Z.of_nat (List.length (colors st)))) as [Hg|Hg];
      apply ret_Some in H; destruct H as [<- <-];
      cbn [colors paletteSize set_colors set_paletteSize].
    + rewrite Array_slice0_nonneg by exact Hn. rewrite length_firstn.
      split; [lia|]. split; [reflexivity|]. split; [lia|]. auto.
    + split; [lia|]. split; [reflexivity|]. split; [lia|].
      intros _. rewrite firstn_all2 by lia. auto.
Qed.

Lemma resize_length_witness :
  List.length [unpinned "101010"; unpinned "202020"; unpinned "303030"] = Z.to_nat 3 /\
  List.filter isPinned [unpinned "101010"; unpinned "202020"; unpinned "303030"] = [].
Proof.
  split; [|reflexivity].
  refine (proj1 (resize_length Sample.Math_pow 3 sevenColors []
                   (set_colors (set_paletteSize sevenColors 3)
                      [unpinned "101010"; unpinned "202020"; unpinned "303030"])
                   [] _ _)).
  - lia.
  - vm_compute. reflexivity.
Defined.

(** ** HEX strings *)

Lemma allAscii_all c : In c allAscii.
Proof.
  rewrite <- (ascii_nat_embedding c). apply in_map. apply in_seq.
  pose proof (nat_ascii_bounded c). lia.
Qed.

Lemma pairCheck_all :
  forallb (fun c1 => forallb (pairCheck c1) allAscii) allAscii = true.
Proof. vm_compute. reflexivity. Qed.

Lemma hex_pair c1 c2 :
  JS.isHexDigit c1 = true -> JS.isHexDigit c2 = true ->
  exists v,
    JS.parseInt16 (String c1 (String c2 EmptyString)) = Some v /\
    0 <= v <= 255 /\
    JS.padStart 2 "0" (JS.toString16 v) =
      String (JS.lowerChar c1) (String (JS.lowerChar c2) EmptyString) /\
    Ascii.eqb c1 "#" = false /\ Ascii.eqb c2 "#" = false.
Proof.
  intros H1 H2.
  pose proof pairCheck_all as K.
  rewrite List.forallb_forall in K. specialize (K c1 (allAscii_all c1)).
  rewrite List.forallb_forall in K. specialize (K c2 (allAscii_all c2)).
  unfold pairCheck in K. rewrite H1, H2 in K. cbn [andb] in K.
  destruct (JS.parseInt16 _) as [v|]; [|discriminate].
  apply andb_prop in K. destruct K as [K K5].
  apply andb_prop in K. destruct K as [K K4].
  apply andb_prop in K. destruct K as [K K3].
  apply andb_prop in K. destruct K as [K1 K2].
  exists v. split; [reflexivity|].
  split; [lia|]. split; [apply String.eqb_eq; exact K3|].
  split; apply negb_true_iff; assumption.
Qed.

Lemma isHex6_inv h :
  isHex6 h = true ->
  exists c1 c2 c3 c4 c5 c6,
    h = String c1 (String c2 (String c3 (String c4 (String c5 (String c6 ""))))) /\
    JS.isHexDigit c1 = true /\ JS.isHexDigit c2 = true /\ JS.isHexDigit c3 = true /\
    JS.isHexDigit c4 = true /\ JS.isHexDigit c5 = true /\ JS.isHexDigit c6 = true.
Proof.
  unfold isHex6. intros H. apply andb_prop in H. destruct H as [L A].
  destruct h as [|c1 [|c2 [|c3 [|c4 [|c5 [|c6 [|c7 h]]]]]]]; try discriminate.
  cbn [allHex] in A.
  repeat (apply andb_prop in A; let X := fresh "X" in destruct A as [X A]).
  exists c1, c2, c3, c4, c5, c6. repeat split; assumption.
Qed.

Lemma lowerChar_idem c : JS.lowerChar (JS.lowerChar c) = JS.lowerChar c.
Proof.
  assert (K : forallb (fun c => Ascii.eqb (JS.lowerChar (JS.lowerChar c)) (JS.lowerChar c))
                allAscii = true) by (vm_compute; reflexivity).
  rewrite List.forallb_forall in K. apply Ascii.eqb_eq, K, allAscii_all.
Qed.

Lemma toLowerCase_idem s : JS.toLowerCase (JS.toLowerCase s) = JS.toLowerCase s.
Proof.
  induction s as [|c s IH]; cbn [JS.toLowerCase]; [reflexivity|].
  rewrite IH, lowerChar_idem. reflexivity.
Qed.

(** C6. Reading a string of six hexadecimal digits and writing the triple
    back gives the string again, in lower case; each channel is written as
    two digits. *)
Theorem hex_round_trip (h : string) :
  isHex6 h = true ->
  exists rgb,
    parseHexToRgb h = Some rgb /\
    rgbToHex (r rgb) (g rgb) (b rgb) = JS.toLowerCase h /\
    JS.toLowerCase (rgbToHex (r rgb) (g rgb) (b rgb)) = JS.toLowerCase h /\
    JS.padStart 2 "0" (JS.toString16 (r rgb)) = JS.toLowerCase (JS.slice h 0 2) /\
    JS.padStart 2 "0" (JS.toString16 (g rgb)) = JS.toLowerCase (JS.slice h 2 4) /\
    JS.padStart 2 "0" (JS.toString16 (b rgb)) = JS.toLowerCase (JS.slice h 4 6).
Proof.
  intros H.
  destruct (isHex6_inv h H) as (c1 & c2 & c3 & c4 & c5 & c6 & -> & H1 & H2 & H3 & H4 & H5 & H6).
  destruct (hex_pair c1 c2 H1 H2) as (rv & Pr & _ & Sr & N1 & N2).
  destruct (hex_pair c3 c4 H3 H4) as (gv & Pg & _ & Sg & N3 & N4).
  destruct (hex_pair c5 c6 H5 H6) as (bv & Pb & _ & Sb & N5 & N6).
  exists (mkRgb rv gv bv).
  assert (E : parseHexToRgb
                (String c1 (String c2 (String c3 (String c4 (String c5 (String c6 ""))))))
              = Some (mkRgb rv gv bv)).
  { unfold parseHexToRgb. cbn [JS.replace].
    rewrite N1, N2, N3, N4, N5, N6.
    cbn [String.length Nat.eqb negb JS.slice substring Nat.sub].
    rewrite Pr, Pg, Pb. reflexivity. }
  assert (R : rgbToHex rv gv bv =
              JS.toLowerCase
                (String c1 (String c2 (String c3 (String c4 (String c5 (String c6 ""))))))).
  { unfold rgbToHex. rewrite Sr, Sg, Sb. reflexivity. }
  split; [exact E|]. split; [exact R|]. cbn [r g b].
  split; [rewrite R; apply toLowerCase_idem|].
  rewrite Sr, Sg, Sb. repeat split; reflexivity.
Qed.

Lemma hex_round_trip_witness :
  exists rgb,
    parseHexToRgb "Ff8800" = Some rgb /\
    rgbToHex (r rgb) (g rgb) (b rgb) = "ff8800".
Proof.
  destruct (hex_round_trip "Ff8800" eq_refl) as (rgb & P & R & _).
  exists rgb. split; [exact P | exact R].
Defined.

(** A cleaned string whose length is not six is refused. *)
Lemma parseHexToRgb_length (hex : string) :
  String.length (JS.replace "#" "" hex) <> 6%nat -> parseHexToRgb hex = None.
Proof.
  intros H. unfold parseHexToRgb.
  destruct (Nat.eqb_spec (String.length (JS.replace "#" "" hex)) 6);
    [contradiction | reflexivity].
Qed.

(** C7 fails on the code: [parseInt] reads the longest prefix of digits of
    each pair, with an optional sign and leading white space, so a pair
    needs only one digit to yield a number; and [replace] removes the first
    marker wherever it stands. *)
Theorem parseHexToRgb_accepts_non_hex :
  isHex6 "1g0000" = false /\ parseHexToRgb "1g0000" = Some (mkRgb 1 0 0) /\
  isHex6 "-f 1+a" = false /\ parseHexToRgb "-f 1+a" = Some (mkRgb (-15) 1 10) /\
  isHex6 "12#3456" = false /\
  parseHexToRgb "12#3456" = Some (mkRgb 18 52 86).
Proof. vm_compute. repeat split. Qed.

(** ** Accent colour *)

Section Accent.

Variable Math_pow : float -> float -> float.

Lemma ltb_irrefl q : (q <? q)%float = false.
Proof.
  destruct (q <? q)%float eqn:E; trivial.
  pose proof (NumFacts.ltb_asym _ _ E). congruence.
Qed.

Lemma nth_error_snoc {A} (l : list A) x j y :
  nth_error (l ++ [x]) j = Some y ->
  ((j < List.length l)%nat /\ nth_error l j = Some y) \/ (j = List.length l /\ y = x).
Proof.
  intros H. destruct (Nat.lt_ge_cases j (List.length l)) as [Hj|Hj].
  - left. rewrite nth_error_app1 in H by exact Hj. auto.
  - right. rewrite nth_error_app2 in H by exact Hj.
    destruct (j - List.length l)%nat as [|k] eqn:E; simpl in H.
    + injection H as <-. split; [lia | reflexivity].
    + destruct k; discriminate.
Qed.

Lemma accentStep_scanned midL seen best c :
  scanned Math_pow midL seen best ->
  scanned Math_pow midL (seen ++ [c]) (accentStep Math_pow midL best c).
Proof.
  intros S. unfold accentStep.
  destruct (parseHexToRgb (hexOf (value c))) as [rgb|] eqn:P.
  - set (q := getContrastRatio midL
                (getRelativeLuminance Math_pow (r rgb) (g rgb) (b rgb))).
    assert (Rc : ratioOf Math_pow midL c = Some q) by (unfold ratioOf; rewrite P; reflexivity).
    destruct best as [a|]; [destruct (ratio a <? q)%float eqn:E|].
    + (* the new entry takes over *)
      destruct S as (i & c0 & Hi & R0 & _ & Hmax & _).
      exists (List.length seen), c. cbn [ratio accent_value].
      split; [rewrite nth_error_app2, Nat.sub_diag by lia; reflexivity|].
      split; [exact Rc|]. split; [reflexivity|]. split.
      * intros j c' q' Hj Rq. apply nth_error_snoc in Hj.
        destruct Hj as [[_ Hj]|[_ ->]].
        -- destruct (q <? q')%float eqn:E'; trivial.
           pose proof (NumFacts.ltb_trans _ _ _ E E') as K.
           rewrite (Hmax _ _ _ Hj Rq) in K. discriminate.
        -- rewrite Rc in Rq. injection Rq as <-. apply ltb_irrefl.
      * intros j c' q' Hlt Hj Rq. rewrite nth_error_app1 in Hj by exact Hlt.
        destruct (q <=? q')%float eqn:E'; trivial.
        pose proof (NumFacts.ltb_leb_trans _ _ _ E E') as K.
        rewrite (Hmax _ _ _ Hj Rq) in K. discriminate.
    + (* the best so far stays *)
      destruct S as (i & c0 & Hi & R0 & V & Hmax & Hfirst).
      pose proof (nth_error_Some seen i) as Hlen.
      assert (Hil : (i < List.length seen)%nat) by (apply Hlen; congruence).
      exists i, c0.
      split; [rewrite nth_error_app1 by exact Hil; exact Hi|].
      split; [exact R0|]. split; [exact V|]. split.
      * intros j c' q' Hj Rq. apply nth_error_snoc in Hj.
        destruct Hj as [[_ Hj]|[_ ->]]; [eapply Hmax; eassumption|].
        rewrite Rc in Rq. injection Rq as <-. exact E.
      * intros j c' q' Hlt Hj Rq.
        rewrite nth_error_app1 in Hj by lia. eapply Hfirst; eassumption.
    + (* the first entry that reads as a colour *)
      exists (List.length seen), c. cbn [ratio accent_value].
      split; [rewrite nth_error_app2, Nat.sub_diag by lia; reflexivity|].
      split; [exact Rc|]. split; [reflexivity|]. split.
      * intros j c' q' Hj Rq. apply nth_error_snoc in Hj.
        destruct Hj as [[_ Hj]|[_ ->]].
        -- rewrite (S _ _ Hj) in Rq. discriminate.
        -- rewrite Rc in Rq. injection Rq as <-. apply ltb_irrefl.
      * intros j c' q' Hlt Hj Rq. rewrite nth_error_app1 in Hj by exact Hlt.
        rewrite (S _ _ Hj) in Rq. discriminate.
  - assert (Rc : ratioOf Math_pow midL c = None) by (unfold ratioOf; rewrite P; reflexivity).
    destruct best as [a|].
    + destruct S as (i & c0 & Hi & R0 & V & Hmax & Hfirst).
      pose proof (nth_error_Some seen i) as Hlen.
      assert (Hil : (i < List.length seen)%nat) by (apply Hlen; congruence).
      exists i, c0.
      split; [rewrite nth_error_app1 by exact Hil; exact Hi|].
      split; [exact R0|]. split; [exact V|]. split.
      * intros j c' q' Hj Rq. apply nth_error_snoc in Hj.
        destruct Hj as [[_ Hj]|[_ ->]]; [eapply Hmax; eassumption|congruence].
      * intros j c' q' Hlt Hj Rq.
        rewrite nth_error_app1 in Hj by lia. eapply Hfirst; eassumption.
    + intros j c' Hj. apply nth_error_snoc in Hj.
      destruct Hj as [[_ Hj]|[_ ->]]; [eapply S; eassumption | exact Rc].
Qed.

Lemma fold_accentStep_scanned midL cs seen best :
  scanned Math_pow midL seen best ->
  scanned Math_pow midL (seen ++ cs) (fold_left (accentStep Math_pow midL) cs best).
Proof.
  revert seen best. induction cs as [|c cs IH]; intros seen best S; simpl.
  - rewrite app_nil_r. exact S.
  - replace (seen ++ c :: cs) with ((seen ++ [c]) ++ cs)
      by (rewrite <- app_assoc; reflexivity).
    apply IH, accentStep_scanned, S.
Qed.

Lemma mid_index_lt {A} (l : list A) :
  l <> [] -> (List.length l / 2 < List.length l)%nat.
Proof.
  intros H. destruct l as [|x l]; [contradiction|].
  apply Nat.div_lt; simpl; lia.
Qed.

End Accent.

(** C5. [accentColor] answers [null] on an empty palette and when the entry
    at index [floor (length / 2)] does not read as a colour. Otherwise it
    answers the HEX value, with its marker, of an entry that reads as a
    colour, together with that entry's contrast ratio against the reference
    luminance; no entry that reads as a colour has a larger ratio (every one
    is at most as large, [NaN] aside), and every such entry before the
    chosen one has a strictly smaller ratio: among equals the first wins. *)
Theorem accentColor_maximal
    (Math_pow : float -> float -> float) (colors : list PaletteColor) :
  (colors = [] -> accentColor Math_pow colors = None) /\
  (colors <> [] ->
   exists mid,
     nth_error colors (List.length colors / 2) = Some mid /\
     match parseHexToRgb (hexOf (value mid)) with
     | None => accentColor Math_pow colors = None
     | Some midRgb =>
         let midL := getRelativeLuminance Math_pow (r midRgb) (g midRgb) (b midRgb) in
         exists i c q,
           nth_error colors i = Some c /\
           ratioOf Math_pow midL c = Some q /\
           accentColor Math_pow colors =
             Some {| accent_value := "#" ++ hexOf (value c); ratio := q |} /\
           (forall j c' q',
              nth_error colors j = Some c' -> ratioOf Math_pow midL c' = Some q' ->
              (q <? q')%float = false /\
              (is_nan q = false -> is_nan q' = false -> (q' <=? q)%float = true)) /\
           (forall j c' q',
              (j < i)%nat -> nth_error colors j = Some c' ->
              ratioOf Math_pow midL c' = Some q' -> (q <=? q')%float = false)
     end).
Proof.
  split; [intros ->; reflexivity|].
  intros Hne. pose proof (mid_index_lt colors Hne) as Hlt.
  destruct (nth_error colors (List.length colors / 2)) as [mid|] eqn:Hmid;
    [|apply nth_error_None in Hmid; lia].
  exists mid. split; [reflexivity|].
  unfold accentColor. rewrite Hmid.
  destruct (Nat.eqb_spec (List.length colors) 0) as [E|_];
    [destruct colors; [contradiction | discriminate]|].
  destruct (parseHexToRgb (hexOf (value mid))) as [midRgb|] eqn:P; [|reflexivity].
  cbv zeta.
  set (midL := getRelativeLuminance Math_pow (r midRgb) (g midRgb) (b midRgb)).
  pose proof (fold_accentStep_scanned Math_pow midL colors [] None) as S.
  cbn [app] in S.
  assert (S0 : scanned Math_pow midL [] None)
    by (intros j c Hj; destruct j; discriminate).
  specialize (S S0).
  destruct (fold_left (accentStep Math_pow midL) colors None) as [a|] eqn:F.
  - destruct S as (i & c & Hi & Rc & V & Hmax & Hfirst).
    exists i, c, (ratio a). split; [exact Hi|]. split; [exact Rc|].
    split; [destruct a as [av aq]; cbn [accent_value ratio] in *; rewrite V; reflexivity|].
    split.
    + intros j c' q' Hj Rq. split; [eapply Hmax; eassumption|].
      intros N1 N2. apply NumFacts.not_ltb_leb; trivial. eapply Hmax; eassumption.
    + exact Hfirst.
  - exfalso. specialize (S _ _ Hmid). unfold ratioOf in S. rewrite P in S.
    discriminate.
Qed.

Example accentColor_scenario :
  accentColor Sample.Math_pow
    [unpinned "202020"; unpinned "rgb(0, 0, 0)"; unpinned "101010";
     unpinned "rgb(32, 32, 32)"; unpinned "zz"]
  = Some {| accent_value := "#202020"; ratio := 1.1678519810123607%float |}.
Proof. vm_compute. reflexivity. Qed.

Example accentColor_empty : accentColor Sample.Math_pow [] = None.
Proof. reflexivity. Qed.

(** ** Editing a library entry *)

Lemma trimEnd_cons c s :
  JS.trimEnd (String c s) =
  match JS.trimEnd s with
  | EmptyString => if JS.isWhiteSpace c then EmptyString else String c EmptyString
  | String c' s' => String c (String c' s')
  end.
Proof. reflexivity. Qed.

Lemma trimEnd_idem s : JS.trimEnd (JS.trimEnd s) = JS.trimEnd s.
Proof.
  induction s as [|c s IH]; [reflexivity|].
  rewrite (trimEnd_cons c s). destruct (JS.trimEnd s) as [|c' s'] eqn:E.
  - destruct (JS.isWhiteSpace c) eqn:W; [reflexivity|].
    rewrite trimEnd_cons. cbn [JS.trimEnd]. rewrite W. reflexivity.
  - rewrite (trimEnd_cons c (String c' s')), IH. reflexivity.
Qed.

Lemma trimStart_headed s : headed (JS.trimStart s).
Proof.
  induction s as [|c s IH]; cbn [JS.trimStart]; [exact I|].
  destruct (JS.isWhiteSpace c) eqn:W; [exact IH | exact W].
Qed.

Lemma trimStart_of_headed s : headed s -> JS.trimStart s = s.
Proof.
  destruct s as [|c s]; [reflexivity|]. cbn [headed JS.trimStart].
  intros ->. reflexivity.
Qed.

Lemma trimEnd_headed s : headed s -> headed (JS.trimEnd s).
Proof.
  destruct s as [|c s]; [intros; exact I|]. cbn [headed]. intros W.
  rewrite trimEnd_cons. destruct (JS.trimEnd s); [rewrite W|]; exact W.
Qed.

(** [trim] leaves a trimmed string as it is. *)
Lemma trim_idem s : JS.trim (JS.trim s) = JS.trim s.
Proof.
  unfold JS.trim.
  rewrite (trimStart_of_headed (JS.trimEnd (JS.trimStart s)))
    by (apply trimEnd_headed, trimStart_headed).
  apply trimEnd_idem.
Qed.

Lemma updateFound_spec p f l i it :
  nth_error l i = Some it -> p it = true ->
  (forall j it', (j < i)%nat -> nth_error l j = Some it' -> p it' = false) ->
  exists l',
    updateFound p f l = Some l' /\
    nth_error l' i = Some (f it) /\
    List.length l' = List.length l /\
    (forall j, j <> i -> nth_error l' j = nth_error l j).
Proof.
  revert i. induction l as [|x l IH]; intros i Hi Hp Hfirst.
  - destruct i; discriminate.
  - destruct i as [|i]; cbn [nth_error] in Hi.
    + injection Hi as ->. cbn [updateFound]. rewrite Hp.
      exists (f it :: l). repeat split. intros [|j] Hj; [contradiction | reflexivity].
    + cbn [updateFound]. rewrite (Hfirst 0%nat x ltac:(lia) eq_refl).
      destruct (IH i Hi Hp) as (l' & E & Hn & Hl & Ho).
      { intros j it' Hj Hit. apply (Hfirst (S j)); [lia | exact Hit]. }
      rewrite E. exists (x :: l'). repeat split.
      * exact Hn.
      * simpl. rewrite Hl. reflexivity.
      * intros [|j] Hj; [reflexivity|]. cbn [nth_error]. apply Ho. lia.
Qed.

(** C8 (as amended). [saveEdit] changes the first entry whose id is the one
    being edited, and no other. Its name becomes the trimmed new name when
    that is not empty and stays otherwise; its tags become the pieces of the
    input between commas, each trimmed, the empty ones left out, in order
    and with repetitions kept. The other fields stay, and the edit fields
    are reset. *)
Theorem saveEdit_updates_entry
    (lib : Library) (eid : string) (i : nat) (it : SavedPaletteItem) :
  editingId lib = Some eid -> eid <> "" ->
  nth_error (items lib) i = Some it -> id it = eid ->
  (forall j it', (j < i)%nat -> nth_error (items lib) j = Some it' -> id it' <> eid) ->
  exists it',
    nth_error (items (saveEdit lib)) i = Some it' /\
    name it' = (if truthy (JS.trim (editName lib)) then JS.trim (editName lib)
                else name it) /\
    tags it' = List.filter truthy (map JS.trim (JS.split "," (editTags lib))) /\
    Forall (fun t => t <> "" /\ JS.trim t = t) (tags it') /\
    id it' = id it /\ item_colors it' = item_colors it /\
    favorite it' = favorite it /\ createdAt it' = createdAt it /\
    (forall j, j <> i -> nth_error (items (saveEdit lib)) j = nth_error (items lib) j) /\
    List.length (items (saveEdit lib)) = List.length (items lib) /\
    editingId (saveEdit lib) = None /\
    editName (saveEdit lib) = "" /\ editTags (saveEdit lib) = "".
Proof.
  intros He Hne Hi Hid Hfirst.
  destruct (updateFound_spec (fun x => String.eqb (id x) eid)
              (applyEdit (editName lib) (editTags lib)) (items lib) i it Hi)
    as (l' & E & Hn & Hl & Ho).
  { apply String.eqb_eq. exact Hid. }
  { intros j it' Hj Hit. apply String.eqb_neq. eapply Hfirst; eassumption. }
  assert (Es : saveEdit lib =
               {| items := l'; editingId := None; editName := ""; editTags := "" |}).
  { unfold saveEdit. rewrite He. unfold truthy.
    rewrite (proj2 (String.eqb_neq eid "") Hne). cbn [negb]. rewrite E. reflexivity. }
  rewrite Es. cbn [items editingId editName editTags].
  exists (applyEdit (editName lib) (editTags lib) it).
  split; [exact Hn|]. cbn [applyEdit name tags id item_colors favorite createdAt].
  split; [reflexivity|]. split; [reflexivity|]. split.
  { generalize (JS.split "," (editTags lib)). intros ps.
    induction ps as [|p ps IH]; cbn [map List.filter]; [constructor|].
    destruct (truthy (JS.trim p)) eqn:T; [|exact IH].
    constructor; [|exact IH]. split; [|apply trim_idem].
    unfold truthy in T. apply negb_true_iff in T. apply String.eqb_neq. exact T. }
  do 4 (split; [reflexivity|]). split; [exact Ho|]. split; [exact Hl|].
  repeat split.
Qed.

Lemma saveEdit_updates_entry_witness :
  exists it',
    nth_error (items (saveEdit editing)) 1 = Some it' /\
    name it' = "Ocean" /\ tags it' = ["warm"; "dark"; "warm"].
Proof.
  destruct (saveEdit_updates_entry editing "pal_2" 1 ocean eq_refl
              ltac:(discriminate) eq_refl eq_refl) as (it' & Hn & Hname & Htags & _).
  - intros [|j] it' Hj Hit; [|lia]. injection Hit as <-. discriminate.
  - exists it'. split; [exact Hn|]. split; [exact Hname | exact Htags].
Defined.

(** C8, as stated, fails where a tag is repeated: the code keeps both, the
    tags of the specification have it once. *)
Lemma saveEdit_keeps_duplicates_counterexample :
  map tags (items (saveEdit editing)) = [["generated"]; ["warm"; "dark"; "warm"]] /\
  specTags (editTags editing) = ["warm"; "dark"] /\
  nth_error (map tags (items (saveEdit editing))) 1
    <> Some (specTags (editTags editing)).
Proof. vm_compute. repeat split. discriminate. Qed.

(** ** Start-up and the hand-off *)

Section Startup.

Variable Math_pow : float -> float -> float.
Variable JSON_parse_active : string -> option ActivePayload.
Variable JSON_parse_state : string -> option ParsedSession.

Lemma applyActivePalette_storage raw st src st1 src1 :
  applyActivePalette Math_pow JSON_parse_active raw st src = Some (st1, src1) ->
  localStorage st1 = localStorage st.
Proof.
  unfold applyActivePalette.
  destruct (JSON_parse_active raw) as [[|[[|hex hexes]|]]|];
    try (intros H; apply ret_Some in H; destruct H as [<- _]; reflexivity).
  set (fromLibrary := map unpinned (hex :: hexes)).
  set (st2 := if paletteSize st <? Z.of_nat (List.length fromLibrary)
              then set_paletteSize st (Z.of_nat (List.length fromLibrary)) else st).
  assert (E : localStorage st2 = localStorage st)
    by (unfold st2; destruct (paletteSize st <? _); reflexivity).
  destruct (Z.of_nat (List.length fromLibrary) <? paletteSize st2); intros H.
  - apply bind_Some in H. destruct H as (extra & s1 & _ & H).
    apply ret_Some in H. destruct H as [<- _]. exact E.
  - apply ret_Some in H. destruct H as [<- _]. exact E.
Qed.

(** A hand-off that yields no colours leaves the state as it is. *)
Lemma applyActivePalette_failed raw st :
  JSON_parse_active raw = None \/ JSON_parse_active raw = Some ActiveNull \/
  JSON_parse_active raw = Some (ActiveObject None) \/
  JSON_parse_active raw = Some (ActiveObject (Some [])) ->
  applyActivePalette Math_pow JSON_parse_active raw st = ret st.
Proof.
  unfold applyActivePalette. intros [-> | [-> | [-> | ->]]]; reflexivity.
Qed.

Lemma applyActivePalette_completes raw st rest :
  exists src st1,
    applyActivePalette Math_pow JSON_parse_active raw st (src ++ rest) = Some (st1, rest).
Proof.
  unfold applyActivePalette.
  destruct (JSON_parse_active raw) as [[|[[|hex hexes]|]]|];
    try (exists [], st; reflexivity).
  set (fromLibrary := map unpinned (hex :: hexes)).
  set (st2 := if paletteSize st <? Z.of_nat (List.length fromLibrary)
              then set_paletteSize st (Z.of_nat (List.length fromLibrary)) else st).
  destruct (Z.of_nat (List.length fromLibrary) <? paletteSize st2).
  - exists (blackSource (Z.to_nat (paletteSize st2 - Z.of_nat (List.length fromLibrary)))).
    eexists. unfold bind. rewrite generateRandomPaletteValues_black. reflexivity.
  - exists []. eexists. reflexivity.
Qed.

Lemma regularLoad_completes st rest :
  exists src out,
    regularLoad Math_pow JSON_parse_state st (src ++ rest) = Some (out, rest).
Proof.
  unfold regularLoad.
  destruct (loadFromStorage JSON_parse_state st) as [st0|];
    [|exists [], IllTyped; reflexivity].
  destruct (List.length (colors st0) =? 0)%nat.
  - exists (blackSource (Z.to_nat (paletteSize st0))). eexists.
    unfold bind. rewrite generateRandomPaletteValues_black. reflexivity.
  - destruct (handleChangeSize_completes Math_pow (paletteSize st0) st0 rest)
      as (src & st1 & H).
    exists src, (Typed st1). unfold handleChangeSize in H.
    replace (set_paletteSize st0 (paletteSize st0)) with st0 in H
      by (destruct st0; reflexivity).
    unfold bind. rewrite H. reflexivity.
Qed.

(** Start-up returns on a source with enough accepted samples. *)
Lemma onMounted_completes st rest :
  exists src out,
    onMounted Math_pow JSON_parse_active JSON_parse_state st (src ++ rest)
    = Some (out, rest).
Proof.
  unfold onMounted.
  destruct (localStorage st !! ACTIVE_PALETTE_KEY) as [raw|];
    [destruct (String.eqb raw "")|]; try apply regularLoad_completes.
  destruct (applyActivePalette_completes raw st rest) as (src & st1 & H).
  exists src. eexists. unfold bind. rewrite H. reflexivity.
Qed.

End Startup.

(** C9 (as amended). When the hand-off key holds a text that is not empty,
    start-up ends with the key deleted and the rest of the storage as it
    was, whatever the text parses to; a second start-up then goes the
    regular way. *)
Theorem handoff_key_removed
    (Math_pow : float -> float -> float)
    (JSON_parse_active : string -> option ActivePayload)
    (JSON_parse_state : string -> option ParsedSession)
    (st : State) (raw : string) (src : list Q) (out : Loaded) (src' : list Q) :
  localStorage st !! ACTIVE_PALETTE_KEY = Some raw -> raw <> "" ->
  onMounted Math_pow JSON_parse_active JSON_parse_state st src = Some (out, src') ->
  exists st',
    out = Typed st' /\
    localStorage st' !! ACTIVE_PALETTE_KEY = None /\
    localStorage st' = delete ACTIVE_PALETTE_KEY (localStorage st) /\
    onMounted Math_pow JSON_parse_active JSON_parse_state st' =
      regularLoad Math_pow JSON_parse_state st'.
Proof.
  intros Hk Hne H. unfold onMounted in H. rewrite Hk in H.
  rewrite (proj2 (String.eqb_neq raw "") Hne) in H.
  apply bind_Some in H. destruct H as (st1 & s1 & Ha & H).
  apply ret_Some in H. destruct H as [<- <-].
  apply applyActivePalette_storage in Ha.
  exists (removeItem ACTIVE_PALETTE_KEY st1). split; [reflexivity|].
  assert (E : localStorage (removeItem ACTIVE_PALETTE_KEY st1) !! ACTIVE_PALETTE_KEY
              = None) by (cbn [localStorage removeItem]; apply lookup_delete_eq).
  split; [exact E|]. split; [cbn [localStorage removeItem]; rewrite Ha; reflexivity|].
  unfold onMounted. rewrite E. reflexivity.
Qed.

Lemma handoff_key_removed_witness :
  exists st',
    Typed
      (removeItem ACTIVE_PALETTE_KEY
         (set_colors (initialState {[ ACTIVE_PALETTE_KEY := Sample.handoffText ]})
            (map unpinned ["112233"; "445566"; "1e0c28"; "6c3c5a"; "000105"])))
    = Typed st' /\
    localStorage st' !! ACTIVE_PALETTE_KEY = None.
Proof.
  destruct (handoff_key_removed Sample.Math_pow Sample.JSON_parse_active
              Sample.JSON_parse_state
              (initialState {[ ACTIVE_PALETTE_KEY := Sample.handoffText ]})
              Sample.handoffText sampleSource
              (Typed
                 (removeItem ACTIVE_PALETTE_KEY
                    (set_colors
                       (initialState {[ ACTIVE_PALETTE_KEY := Sample.handoffText ]})
                       (map unpinned ["112233"; "445566"; "1e0c28"; "6c3c5a"; "000105"]))))
              [])
    as (st' & E & H & _).
  - reflexivity.
  - discriminate.
  - vm_compute. reflexivity.
  - exists st'. split; [exact E | exact H].
Defined.

(** C9, as stated, fails when the key holds the empty text: the condition
    [if (activeRaw)] does not hold, start-up goes the regular way and the key
    stays. *)
Lemma empty_handoff_stays_counterexample :
  exists st',
    onMounted Sample.Math_pow Sample.JSON_parse_active Sample.JSON_parse_state
      (initialState {[ ACTIVE_PALETTE_KEY := "" ]}) (blackSource 5)
      = Some (Typed st', []) /\
    localStorage (initialState {[ ACTIVE_PALETTE_KEY := "" ]}) !! ACTIVE_PALETTE_KEY
      = Some "" /\
    localStorage st' !! ACTIVE_PALETTE_KEY = Some "".
Proof.
  eexists. split; [vm_compute; reflexivity|]. split; vm_compute; reflexivity.
Qed.

(** C10 (as amended). When the hand-off key holds a text that is not empty
    and that text does not parse, or parses to a value without a [colors]
    array or with an empty one, start-up only deletes the key: the palette
    stays empty, format and size stay at their defaults whatever the saved
    session holds, and no sample is drawn. *)
Theorem failed_handoff_starts_empty
    (Math_pow : float -> float -> float)
    (JSON_parse_active : string -> option ActivePayload)
    (JSON_parse_state : string -> option ParsedSession)
    (storage : gmap string string) (raw : string) (src : list Q) :
  storage !! ACTIVE_PALETTE_KEY = Some raw -> raw <> "" ->
  (JSON_parse_active raw = None \/ JSON_parse_active raw = Some ActiveNull \/
   JSON_parse_active raw = Some (ActiveObject None) \/
   JSON_parse_active raw = Some (ActiveObject (Some []))) ->
  exists st',
    onMounted Math_pow JSON_parse_active JSON_parse_state (initialState storage) src
    = Some (Typed st', src) /\
    colors st' = [] /\ format st' = HEX /\ paletteSize st' = 5 /\
    isDarkPreview st' = true /\
    localStorage st' = delete ACTIVE_PALETTE_KEY storage.
Proof.
  intros Hk Hne Hp.
  exists (removeItem ACTIVE_PALETTE_KEY (initialState storage)).
  split; [|repeat split].
  unfold onMounted. cbn [localStorage initialState]. rewrite Hk.
  rewrite (proj2 (String.eqb_neq raw "") Hne).
  rewrite (applyActivePalette_failed Math_pow JSON_parse_active raw _ Hp).
  reflexivity.
Qed.

Lemma failed_handoff_starts_empty_witness :
  Sample.JSON_parse_state Sample.savedText <> None /\
  exists st',
    onMounted Sample.Math_pow Sample.JSON_parse_active Sample.JSON_parse_state
      (initialState (storageWith "oops")) sampleSource
      = Some (Typed st', sampleSource) /\
    colors st' = [].
Proof.
  split; [discriminate|].
  destruct (failed_handoff_starts_empty Sample.Math_pow Sample.JSON_parse_active
              Sample.JSON_parse_state (storageWith "oops") "oops" sampleSource)
    as (st' & H & Hc & _).
  - reflexivity.
  - discriminate.
  - left. reflexivity.
  - exists st'. split; [exact H | exact Hc].
Defined.

(** C10, as stated, fails when the key holds the empty text, which does not
    parse: start-up goes the regular way and takes the saved session. *)
Lemma empty_handoff_loads_session_counterexample :
  storageWith "" !! ACTIVE_PALETTE_KEY = Some "" /\
  Sample.JSON_parse_active "" = None /\
  exists st',
    onMounted Sample.Math_pow Sample.JSON_parse_active Sample.JSON_parse_state
      (initialState (storageWith "")) [] = Some (Typed st', []) /\
    colors st' = [pin "112233"; unpinned "445566"; unpinned "778899"].
Proof.
  split; [vm_compute; reflexivity|]. split; [reflexivity|].
  eexists. split; vm_compute; reflexivity.
Qed.

(** * Further properties *)

(** ** Channels written and read back *)

Lemma byteCheck_all : forallb byteCheck (seq 0 256) = true.
Proof. vm_compute. reflexivity. Qed.

Lemma byte_written v :
  0 <= v <= 255 ->
  exists c1 c2,
    JS.padStart 2 "0" (JS.toString16 v) = String c1 (String c2 EmptyString) /\
    JS.isHexDigit c1 = true /\ JS.isHexDigit c2 = true /\
    Ascii.eqb c1 "#" = false /\ Ascii.eqb c2 "#" = false /\
    JS.parseInt16 (String c1 (String c2 EmptyString)) = Some v.
Proof.
  intros Hv. pose proof byteCheck_all as K.
  rewrite List.forallb_forall in K.
  assert (Hin : In (Z.to_nat v) (seq 0 256)) by (apply in_seq; lia).
  specialize (K (Z.to_nat v) Hin). unfold byteCheck in K.
  rewrite Z2Nat.id in K by lia.
  destruct (JS.padStart 2 "0" (JS.toString16 v)) as [|c1 [|c2 [|c3 s]]];
    try discriminate.
  apply andb_prop in K. destruct K as [K K5].
  apply andb_prop in K. destruct K as [K K4].
  apply andb_prop in K. destruct K as [K K3].
  apply andb_prop in K. destruct K as [K1 K2].
  exists c1, c2. split; [reflexivity|].
  repeat split; trivial; try (apply negb_true_iff; assumption).
  destruct (JS.parseInt16 _) as [w|]; [|discriminate].
  apply Z.eqb_eq in K5. congruence.
Qed.

Lemma parse_rgbToHex r g b :
  0 <= r <= 255 -> 0 <= g <= 255 -> 0 <= b <= 255 ->
  parseHexToRgb (rgbToHex r g b) = Some (mkRgb r g b) /\
  isHex6 (rgbToHex r g b) = true.
Proof.
  intros Hr Hg Hb.
  destruct (byte_written r Hr) as (a1 & a2 & Er & A1 & A2 & N1 & N2 & Pr).
  destruct (byte_written g Hg) as (a3 & a4 & Eg & A3 & A4 & N3 & N4 & Pg).
  destruct (byte_written b Hb) as (a5 & a6 & Eb & A5 & A6 & N5 & N6 & Pb).
  unfold rgbToHex. rewrite Er, Eg, Eb.
  cbv beta iota fix delta [String.append]. split.
  - unfold parseHexToRgb. cbn [JS.replace].
    rewrite N1, N2, N3, N4, N5, N6.
    cbn [String.length Nat.eqb negb JS.slice substring Nat.sub].
    rewrite Pr, Pg, Pb. reflexivity.
  - unfold isHex6. cbn [String.length Nat.eqb allHex andb].
    rewrite A1, A2, A3, A4, A5, A6. reflexivity.
Qed.

(** X1. A triple of channels in [[0, 255]] written by [rgbToHex] is a string
    of six hexadecimal digits that [parseHexToRgb] reads back as the same
    triple. *)
Theorem rgb_hex_round_trip (r g b : Z) :
  0 <= r <= 255 -> 0 <= g <= 255 -> 0 <= b <= 255 ->
  parseHexToRgb (rgbToHex r g b) = Some (mkRgb r g b) /\
  isHex6 (rgbToHex r g b) = true /\
  String.length (rgbToHex r g b) = 6%nat.
Proof.
  intros Hr Hg Hb. destruct (parse_rgbToHex r g b Hr Hg Hb) as (P & H).
  split; [exact P|]. split; [exact H|].
  unfold isHex6 in H. apply andb_prop in H. destruct H as [L _].
  apply Nat.eqb_eq. exact L.
Qed.

Lemma rgb_hex_round_trip_witness :
  parseHexToRgb (rgbToHex 108 60 90) = Some (mkRgb 108 60 90) /\
  rgbToHex 108 60 90 = "6c3c5a".
Proof.
  split; [|reflexivity].
  refine (proj1 (rgb_hex_round_trip 108 60 90 _ _ _)); lia.
Defined.

(** *** The [rgb(...)] encoding *)

Lemma digitsFrom_stops s acc : stops s -> Pattern.digitsFrom s acc = (acc, s).
Proof.
  destruct s as [|c s]; [reflexivity|]. cbn [stops Pattern.digitsFrom].
  intros ->. reflexivity.
Qed.

Lemma append_cons c (s t : string) : (String c s ++ t)%string = String c (s ++ t)%string.
Proof. reflexivity. Qed.

Lemma append_nil (t : string) : (EmptyString ++ t)%string = t.
Proof. reflexivity. Qed.

Lemma digitsFrom_app ds tail acc :
  allDigits ds = true -> stops tail ->
  Pattern.digitsFrom (ds ++ tail)%string acc =
  (fst (Pattern.digitsFrom ds acc), tail).
Proof.
  revert acc. induction ds as [|c ds IH]; intros acc Hd Ht.
  - rewrite append_nil, digitsFrom_stops by exact Ht. reflexivity.
  - cbn [allDigits] in Hd. apply andb_prop in Hd. destruct Hd as [Hc Hd].
    rewrite append_cons. cbn [Pattern.digitsFrom]. rewrite Hc. apply IH; assumption.
Qed.

Lemma decCheck_all : forallb decCheck (seq 0 256) = true.
Proof. vm_compute. reflexivity. Qed.

Lemma dec_written v :
  0 <= v <= 255 ->
  allDigits (JS.toString10 v) = true /\
  (forall tail, JS.trimStart (JS.toString10 v ++ tail) = (JS.toString10 v ++ tail)%string) /\
  fst (Pattern.digitsFrom (JS.toString10 v) None) = Some v.
Proof.
  intros Hv. pose proof decCheck_all as K.
  rewrite List.forallb_forall in K.
  assert (Hin : In (Z.to_nat v) (seq 0 256)) by (apply in_seq; lia).
  specialize (K (Z.to_nat v) Hin). unfold decCheck in K.
  rewrite Z2Nat.id in K by lia. cbv zeta in K.
  apply andb_prop in K. destruct K as [K K3].
  apply andb_prop in K. destruct K as [K1 K2].
  split; [exact K1|]. split.
  - intros tail. destruct (JS.toString10 v) as [|c s]; [discriminate|].
    rewrite append_cons. cbn [JS.trimStart]. apply negb_true_iff in K2.
    rewrite K2. reflexivity.
  - destruct (fst (Pattern.digitsFrom (JS.toString10 v) None)) as [w|];
      [|discriminate].
    apply Z.eqb_eq in K3. congruence.
Qed.

Lemma matchHere_shape dr dg db vr vg vb :
  allDigits dr = true -> allDigits dg = true -> allDigits db = true ->
  (forall tail, JS.trimStart (dg ++ tail) = (dg ++ tail)%string) ->
  (forall tail, JS.trimStart (db ++ tail) = (db ++ tail)%string) ->
  fst (Pattern.digitsFrom dr None) = Some vr ->
  fst (Pattern.digitsFrom dg None) = Some vg ->
  fst (Pattern.digitsFrom db None) = Some vb ->
  Pattern.matchHere
    (String "r" (String "g" (String "b" (String "("
       (dr ++ String "," (String " "
          (dg ++ String "," (String " " (db ++ String ")" EmptyString)))))))))
  = Some (vr, vg, vb).
Proof.
  intros Dr Dg Db Tg Tb Vr Vg Vb. unfold Pattern.matchHere.
  cbn [Pattern.expect Pattern.isLetter Pattern.isChar mbind option_bind
       Ascii.eqb Bool.eqb orb andb].
  change (Pattern.skipSpace (String "(" ?s)) with (String "(" s).
  cbn [Pattern.expect Pattern.isLetter Pattern.isChar mbind option_bind
       Ascii.eqb Bool.eqb orb andb].
  rewrite (digitsFrom_app dr) by (trivial; reflexivity). rewrite Vr.
  cbn [mbind option_bind].
  change (Pattern.skipSpace (String "," ?s)) with (String "," s).
  cbn [Pattern.expect Pattern.isLetter Pattern.isChar mbind option_bind
       Ascii.eqb Bool.eqb orb andb].
  change (Pattern.skipSpace (String " " ?s)) with (JS.trimStart s).
  rewrite Tg.
  rewrite (digitsFrom_app dg) by (trivial; reflexivity). rewrite Vg.
  cbn [mbind option_bind].
  change (Pattern.skipSpace (String "," ?s)) with (String "," s).
  cbn [Pattern.expect Pattern.isLetter Pattern.isChar mbind option_bind
       Ascii.eqb Bool.eqb orb andb].
  change (Pattern.skipSpace (String " " ?s)) with (JS.trimStart s).
  rewrite Tb.
  rewrite (digitsFrom_app db) by (trivial; reflexivity). rewrite Vb.
  cbn [mbind option_bind].
  change (Pattern.skipSpace (String ")" ?s)) with (String ")" s).
  cbn [Pattern.expect Pattern.isLetter Pattern.isChar mbind option_bind
       Ascii.eqb Bool.eqb orb andb].
  reflexivity.
Qed.

Lemma matchHere_rgbString r g b :
  0 <= r <= 255 -> 0 <= g <= 255 -> 0 <= b <= 255 ->
  Pattern.matchHere (rgbString r g b) = Some (r, g, b).
Proof.
  intros Hr Hg Hb.
  destruct (dec_written r Hr) as (Dr & Tr & Vr).
  destruct (dec_written g Hg) as (Dg & Tg & Vg).
  destruct (dec_written b Hb) as (Db & Tb & Vb).
  exact (matchHere_shape _ _ _ r g b Dr Dg Db Tg Tb Vr Vg Vb).
Qed.

Lemma search_of_matchHere s m :
  Pattern.matchHere s = Some m -> Pattern.search s = Some m.
Proof. intros H. destruct s; cbn [Pattern.search]; rewrite H; reflexivity. Qed.

Lemma hexOf_rgbString r g b :
  0 <= r <= 255 -> 0 <= g <= 255 -> 0 <= b <= 255 ->
  hexOf (rgbString r g b) = rgbToHex r g b.
Proof.
  intros Hr Hg Hb. unfold hexOf.
  change (JS.startsWith (rgbString r g b) "rgb") with true. cbv iota.
  unfold rgbStringToHex.
  rewrite (search_of_matchHere _ _ (matchHere_rgbString r g b Hr Hg Hb)).
  reflexivity.
Qed.

(** X2. A triple of channels in [[0, 255]] written as [rgb(r, g, b)], the
    way the generator writes it, is turned by [rgbStringToHex] into the HEX
    string of the same triple, and read back as that triple. *)
Theorem rgb_string_round_trip (r g b : Z) :
  0 <= r <= 255 -> 0 <= g <= 255 -> 0 <= b <= 255 ->
  rgbStringToHex (rgbString r g b) = rgbToHex r g b /\
  hexOf (rgbString r g b) = rgbToHex r g b /\
  parseHexToRgb (hexOf (rgbString r g b)) = Some (mkRgb r g b).
Proof.
  intros Hr Hg Hb.
  pose proof (hexOf_rgbString r g b Hr Hg Hb) as H.
  split; [|split; [exact H|]].
  - unfold rgbStringToHex.
    rewrite (search_of_matchHere _ _ (matchHere_rgbString r g b Hr Hg Hb)).
    reflexivity.
  - rewrite H. apply parse_rgbToHex; assumption.
Qed.

Lemma rgb_string_round_trip_witness :
  rgbString 108 60 90 = "rgb(108, 60, 90)" /\
  rgbStringToHex (rgbString 108 60 90) = rgbToHex 108 60 90.
Proof.
  split; [reflexivity|].
  refine (proj1 (rgb_string_round_trip 108 60 90 _ _ _)); lia.
Defined.

(** *** The marker *)

Lemma replace_noChar x rep s : noChar x s = true -> JS.replace x rep s = s.
Proof.
  induction s as [|c s IH]; [reflexivity|]. cbn [noChar JS.replace]. intros H.
  apply andb_prop in H. destruct H as [Hc Hs]. apply negb_true_iff in Hc.
  rewrite Hc, IH by exact Hs. reflexivity.
Qed.

(** X3. The marker is optional: a string without [#] reads the same with one
    [#] put in front of it. *)
Theorem parseHexToRgb_marker_optional (h : string) :
  noChar "#" h = true ->
  parseHexToRgb (String "#" h) = parseHexToRgb h.
Proof.
  intros H. unfold parseHexToRgb.
  change (JS.replace "#" "" (String "#" h)) with h.
  rewrite (replace_noChar "#" "" h H). reflexivity.
Qed.

Lemma parseHexToRgb_marker_optional_witness :
  parseHexToRgb "#6c3c5a" = parseHexToRgb "6c3c5a" /\
  parseHexToRgb "6c3c5a" = Some (mkRgb 108 60 90).
Proof.
  split; [|reflexivity].
  exact (parseHexToRgb_marker_optional "6c3c5a" eq_refl).
Defined.

(** ** Contrast *)

(** X4. The contrast ratio does not depend on the order of the two
    luminances, for all binary64 values, [NaN] and the two zeros included. *)
Theorem contrast_ratio_symmetric (l1 l2 : float) :
  getContrastRatio l1 l2 = getContrastRatio l2 l1.
Proof.
  unfold getContrastRatio.
  rewrite (NumFacts.Math_max_comm l1 l2), (NumFacts.Math_min_comm l1 l2).
  reflexivity.
Qed.

Lemma float_leb_trans x y z :
  (x <=? y)%float = true -> (y <=? z)%float = true -> (x <=? z)%float = true.
Proof.
  rewrite !NumFacts.leb_kle. unfold NumOrder.kle.
  intros (a & b & Ha & Hb & E1) (b' & c & Hb' & Hc & E2).
  rewrite Hb in Hb'. inversion Hb'; subst b'.
  exists a, c. repeat split; trivial.
  rewrite NumFacts.lexcmp_Lt in *.
  destruct a as [[a1 a2] a3], b as [[b1 b2] b3], c as [[c1 c2] c3]. simpl in *. lia.
Qed.

(** X5. The level grows with the ratio: a ratio that is at least another one
    gets at least its level; and a ratio that is not a number gets no
    level. *)
Theorem getAccessibilityLevel_monotone (ratio1 ratio2 : float) :
  ((ratio1 <=? ratio2)%float = true ->
   (levelRank (getAccessibilityLevel ratio1)
    <= levelRank (getAccessibilityLevel ratio2))%nat) /\
  (is_nan ratio1 = true -> getAccessibilityLevel ratio1 = none).
Proof.
  split.
  - intros H. unfold getAccessibilityLevel.
    destruct (7 <=? ratio1)%float eqn:E7.
    + rewrite (float_leb_trans _ _ _ E7 H). reflexivity.
    + destruct (4.5 <=? ratio1)%float eqn:E4; [|simpl; lia].
      rewrite (float_leb_trans _ _ _ E4 H).
      destruct (7 <=? ratio2)%float; simpl; lia.
  - intros N. unfold getAccessibilityLevel.
    assert (K : forall x, (x <=? ratio1)%float = false).
    { intros x. destruct (x <=? ratio1)%float eqn:E; trivial.
      apply NumFacts.leb_kle in E. destruct E as (a & b & _ & Hb & _).
      assert (N' : is_nan ratio1 = false) by (apply NumFacts.is_nan_key; eauto).
      congruence. }
    rewrite !K. reflexivity.
Qed.

(** ** The analyser on generated colours *)

Lemma rgbToHex_not_rgb r g b :
  0 <= r <= 255 -> JS.startsWith (rgbToHex r g b) "rgb" = false.
Proof.
  intros Hr. destruct (byte_written r Hr) as (a1 & a2 & Er & A1 & _).
  unfold rgbToHex. rewrite Er. rewrite !append_cons.
  unfold JS.startsWith. cbn [String.prefix].
  destruct (ascii_dec "r" a1) as [<-|_]; [discriminate A1 | reflexivity].
Qed.

Lemma hexOf_generated Math_pow type c :
  accepted Math_pow c ->
  hexOf (encodeColor type c) = rgbToHex (r c) (g c) (b c) /\
  parseHexToRgb (hexOf (encodeColor type c)) = Some c.
Proof.
  intros (Hr & Hg & Hb & _).
  assert (E : hexOf (encodeColor type c) = rgbToHex (r c) (g c) (b c)).
  { destruct type; cbn [encodeColor].
    - unfold hexOf. rewrite rgbToHex_not_rgb by lia. reflexivity.
    - apply hexOf_rgbString; lia. }
  split; [exact E|]. rewrite E.
  destruct (parse_rgbToHex (r c) (g c) (b c)) as [P _]; try lia.
  rewrite P. destruct c; reflexivity.
Qed.

Lemma analysisRow_generated Math_pow type c :
  accepted Math_pow c ->
  exists row,
    analysisRow Math_pow (unpinned (encodeColor type c)) = Some row /\
    whiteLevel row = AAA /\
    row_hex row = String "#" (rgbToHex (r c) (g c) (b c)).
Proof.
  intros Ha. destruct (hexOf_generated Math_pow type c Ha) as (E & P).
  destruct Ha as (_ & _ & _ & Ha).
  unfold analysisRow. cbn [value unpinned]. rewrite P. eexists.
  split; [reflexivity|]. cbn [whiteLevel row_hex]. rewrite E. split; [|reflexivity].
  unfold isAaaContrastWithWhite, AAA_CONTRAST_RATIO in Ha.
  unfold getAccessibilityLevel. rewrite Ha. reflexivity.
Qed.

(** X6. Whatever the generator hands out, in either encoding, the analyser
    reads back: it has one row for every generated value, none is dropped,
    every row shows the HEX form of its value and the level AAA against
    white. *)
Theorem generated_palette_analysed_AAA
    (Math_pow : float -> float -> float) (type : ColorCodeType) (length : Z)
    (src : list Q) (values : list string) (src' : list Q) :
  Forall unit_sample src ->
  generateRandomPaletteValues Math_pow type length src = Some (values, src') ->
  List.length (accessibilityAnalysis Math_pow (map unpinned values))
    = List.length values /\
  Forall (fun row => whiteLevel row = AAA)
    (accessibilityAnalysis Math_pow (map unpinned values)) /\
  map row_hex (accessibilityAnalysis Math_pow (map unpinned values))
    = map (fun v => String "#" (hexOf v)) values.
Proof.
  intros Hs H.
  destruct (generateRandomPaletteValues_spec _ _ _ _ _ _ Hs H) as (_ & F & _).
  clear H. unfold accessibilityAnalysis.
  induction F as [|v vs (c & -> & Ha) _ (IH1 & IH2 & IH3)].
  - repeat split. constructor.
  - destruct (analysisRow_generated Math_pow type c Ha) as (row & E & Hl & Hh).
    destruct (hexOf_generated Math_pow type c Ha) as (Eh & _).
    cbn [map omap list_omap]. rewrite E. cbn [List.length map].
    repeat split.
    + rewrite IH1. reflexivity.
    + constructor; assumption.
    + rewrite IH3, Hh, Eh. reflexivity.
Qed.

Lemma generated_palette_analysed_AAA_witness :
  Forall (fun row => whiteLevel row = AAA)
    (accessibilityAnalysis Sample.Math_pow
       (map unpinned ["rgb(30, 12, 40)"; "rgb(108, 60, 90)"])) /\
  map row_hex (accessibilityAnalysis Sample.Math_pow
                 (map unpinned ["rgb(30, 12, 40)"; "rgb(108, 60, 90)"]))
  = ["#1e0c28"; "#6c3c5a"].
Proof.
  destruct (generated_palette_analysed_AAA Sample.Math_pow RGB 2 sampleSource
              ["rgb(30, 12, 40)"; "rgb(108, 60, 90)"] [0; 1#121; 5#121]%Q)
    as (_ & F & M).
  - repeat constructor; discriminate.
  - vm_compute. reflexivity.
  - split; [exact F|]. rewrite M. reflexivity.
Defined.

(** X7. A value that begins with [rgb] and does not hold the pattern
    [rgb(r, g, b)] anywhere is not dropped by the analyser: it is read as
    black, with ratio 21 against white and 1 against black. *)
Theorem malformed_rgb_analysed_as_black
    (Math_pow : float -> float -> float) (c : PaletteColor) :
  JS.startsWith (value c) "rgb" = true ->
  Pattern.search (value c) = None ->
  analysisRow Math_pow c =
    Some {| row_hex := "#000000"; whiteRatio := 21; blackRatio := 1;
            whiteLevel := AAA; blackLevel := none |}.
Proof.
  intros Hs Hm. unfold analysisRow, hexOf, rgbStringToHex. rewrite Hs, Hm.
  vm_compute. reflexivity.
Qed.

Lemma malformed_rgb_analysed_as_black_witness :
  analysisRow Sample.Math_pow (unpinned "rgb(12; 40)") =
    Some {| row_hex := "#000000"; whiteRatio := 21; blackRatio := 1;
            whiteLevel := AAA; blackLevel := none |}.
Proof.
  exact (malformed_rgb_analysed_as_black Sample.Math_pow (unpinned "rgb(12; 40)")
           eq_refl eq_refl).
Defined.

(** X8. The colours [savePalette] writes for generated values are strings of
    six hexadecimal digits in either encoding, the same the analyser reads:
    an [rgb(...)] value is converted, a HEX value is kept. *)
Theorem savedHex_generated
    (Math_pow : float -> float -> float) (type : ColorCodeType) (c : Rgb)
    (pinned : bool) :
  accepted Math_pow c ->
  savedHex {| value := encodeColor type c; isPinned := pinned |}
    = rgbToHex (r c) (g c) (b c) /\
  isHex6 (savedHex {| value := encodeColor type c; isPinned := pinned |}) = true /\
  savedHex {| value := encodeColor type c; isPinned := pinned |}
    = hexOf (encodeColor type c).
Proof.
  intros Ha. destruct (hexOf_generated Math_pow type c Ha) as (Eh & _).
  destruct Ha as (Hr & Hg & Hb & _).
  assert (E : savedHex {| value := encodeColor type c; isPinned := pinned |}
              = rgbToHex (r c) (g c) (b c)).
  { unfold savedHex. cbn [value]. destruct type; cbn [encodeColor].
    - rewrite rgbToHex_not_rgb by lia.
      destruct (byte_written (r c)) as (a1 & a2 & Er & _ & _ & N1 & N2 & _); [lia|].
      destruct (byte_written (g c)) as (a3 & a4 & Eg & _ & _ & N3 & N4 & _); [lia|].
      destruct (byte_written (b c)) as (a5 & a6 & Eb & _ & _ & N5 & N6 & _); [lia|].
      unfold rgbToHex. rewrite Er, Eg, Eb. rewrite !append_cons, !append_nil.
      cbn [JS.replace]. rewrite N1, N2, N3, N4, N5, N6. reflexivity.
    - change (JS.startsWith (rgbString (r c) (g c) (b c)) "rgb") with true.
      cbv iota.
      rewrite (search_of_matchHere _ _
                 (matchHere_rgbString (r c) (g c) (b c) ltac:(lia) ltac:(lia) ltac:(lia))).
      reflexivity. }
  split; [exact E|]. split; [|rewrite E, Eh; reflexivity].
  rewrite E. apply parse_rgbToHex; lia.
Qed.

Lemma savedHex_generated_witness :
  savedHex (pin "rgb(108, 60, 90)") = "6c3c5a".
Proof.
  refine (proj1 (savedHex_generated Sample.Math_pow RGB (mkRgb 108 60 90) true _)).
  unfold accepted. cbn [r g b]. repeat split; try lia; vm_compute; reflexivity.
Defined.

(** ** Pinning *)

Lemma flipPin_flipPin c : flipPin (flipPin c) = c.
Proof. destruct c as [v p]. unfold flipPin. cbn. rewrite negb_involutive. reflexivity. Qed.

Lemma handleTogglePin_in (index : Z) (st : State) :
  0 <= index < Z.of_nat (List.length (colors st)) ->
  handleTogglePin index st =
    {| format := format st; paletteSize := paletteSize st;
       colors := alter flipPin (Z.to_nat index) (colors st);
       pinedColors := List.filter isPinned (alter flipPin (Z.to_nat index) (colors st));
       isDarkPreview := isDarkPreview st; localStorage := localStorage st |}.
Proof.
  intros H. unfold handleTogglePin.
  destruct (Z.ltb_spec index 0); [lia|].
  destruct (lookup_lt_is_Some_2 (colors st) (Z.to_nat index)) as [c ->]; [lia|].
  reflexivity.
Qed.

Lemma handleTogglePin_undefined (index : Z) (st : State) :
  (if index <? 0 then None else colors st !! Z.to_nat index) = None ->
  handleTogglePin index st = st.
Proof. intros H. unfold handleTogglePin. rewrite H. reflexivity. Qed.

Lemma colors_undefined (index : Z) (cs : list PaletteColor) :
  index < 0 \/ Z.of_nat (List.length cs) <= index ->
  (if index <? 0 then None else cs !! Z.to_nat index) = None.
Proof.
  intros H. destruct (Z.ltb_spec index 0); [reflexivity|].
  apply lookup_ge_None_2. lia.
Qed.

(** X9. A pin toggle at an index below zero or past the end changes nothing. *)
Theorem handleTogglePin_out_of_range (index : Z) (st : State) :
  index < 0 \/ Z.of_nat (List.length (colors st)) <= index ->
  handleTogglePin index st = st.
Proof.
  intros H. apply handleTogglePin_undefined.
  apply colors_undefined. exact H.
Qed.

Lemma handleTogglePin_out_of_range_witness : handleTogglePin 3 scenario = scenario.
Proof. apply handleTogglePin_out_of_range. right. simpl. lia. Defined.

(** X10. A pin toggle at an index of the palette flips the flag of that entry
    and of no other, keeps every value and the length, and leaves in
    [pinedColors] exactly the pinned entries of the palette, in order. *)
Theorem handleTogglePin_flips_one (index : Z) (st : State) :
  0 <= index < Z.of_nat (List.length (colors st)) ->
  colors (handleTogglePin index st) !! Z.to_nat index
    = flipPin <$> colors st !! Z.to_nat index /\
  (forall j, j <> Z.to_nat index ->
             colors (handleTogglePin index st) !! j = colors st !! j) /\
  map value (colors (handleTogglePin index st)) = map value (colors st) /\
  List.length (colors (handleTogglePin index st)) = List.length (colors st) /\
  pinedColors (handleTogglePin index st)
    = List.filter isPinned (colors (handleTogglePin index st)) /\
  paletteSize (handleTogglePin index st) = paletteSize st /\
  format (handleTogglePin index st) = format st.
Proof.
  intros H. rewrite (handleTogglePin_in index st H).
  cbn [colors pinedColors paletteSize format].
  split; [apply list_lookup_alter_eq|].
  split; [intros j Hj; apply list_lookup_alter_ne; congruence|].
  split.
  { apply list_eq. intros j. rewrite !list_lookup_fmap.
    destruct (decide (j = Z.to_nat index)) as [->|Hj].
    - rewrite list_lookup_alter_eq. destruct (colors st !! Z.to_nat index); reflexivity.
    - rewrite list_lookup_alter_ne by congruence. reflexivity. }
  split; [apply length_alter|]. repeat split.
Qed.

Lemma handleTogglePin_flips_one_witness :
  colors (handleTogglePin 0 scenario) !! Z.to_nat 0
    = flipPin <$> colors scenario !! Z.to_nat 0 /\
  pinedColors (handleTogglePin 0 scenario) = [pin "ff0000"; pin "00ff00"].
Proof.
  split; [|reflexivity].
  refine (proj1 (handleTogglePin_flips_one 0 scenario _)). simpl. lia.
Defined.

(** X11. Toggling the same pin twice gives the palette back. *)
Theorem handleTogglePin_twice (index : Z) (st : State) :
  colors (handleTogglePin index (handleTogglePin index st)) = colors st.
Proof.
  destruct (Z.ltb_spec index 0) as [Hn|Hn];
    [rewrite !(handleTogglePin_undefined index st) by (apply colors_undefined; lia); reflexivity|].
  destruct (Z.ltb_spec index (Z.of_nat (List.length (colors st)))) as [Hl|Hl];
    [|rewrite !(handleTogglePin_undefined index st) by (apply colors_undefined; lia); reflexivity].
  rewrite (handleTogglePin_in index st) by lia.
  rewrite handleTogglePin_in by (cbn [colors]; rewrite length_alter; lia).
  cbn [colors]. apply list_eq. intros j.
  destruct (decide (j = Z.to_nat index)) as [->|Hj].
  - rewrite !list_lookup_alter_eq.
    destruct (colors st !! Z.to_nat index); cbn; [rewrite flipPin_flipPin|]; reflexivity.
  - rewrite !list_lookup_alter_ne by congruence. reflexivity.
Qed.

(** ** Changing the format *)

Lemma handleChangeFormat_eq Math_pow newFormat st :
  handleChangeFormat Math_pow newFormat st
  = generateNewPalette Math_pow (set_format st newFormat).
Proof. reflexivity. Qed.

Lemma fillToSize_generated Math_pow fuel type size result src res src' :
  Forall unit_sample src ->
  fillToSize Math_pow fuel type size result src = Some (res, src') ->
  exists extras,
    res = result ++ map unpinned extras /\
    Forall (generated Math_pow type) extras /\
    Z.of_nat (List.length res) = Z.max size (Z.of_nat (List.length result)).
Proof.
  revert result src. induction fuel as [|fuel IH]; intros result src Hs H;
    cbn [fillToSize] in H;
    destruct (Z.ltb_spec (Z.of_nat (List.length result)) size) as [Hl|Hl];
    try discriminate;
    try (apply ret_Some in H; destruct H as [<- _]; exists [];
         rewrite app_nil_r; split; [reflexivity | split; [constructor | lia]]).
  apply bind_Some in H. destruct H as (extra & s1 & He & H).
  destruct (generateRandomPaletteValues_spec _ _ _ _ _ _ Hs He) as (Le & Fe & Hs1).
  destruct extra as [|v extra]; [discriminate|]. cbn [nth_error] in H.
  destruct (IH _ _ Hs1 H) as (extras & -> & Fx & L).
  exists (v :: extras). split; [rewrite <- app_assoc; reflexivity|].
  split; [constructor; [inversion Fe; assumption | exact Fx]|].
  rewrite L, length_app. simpl. lia.
Qed.

Lemma generateNewPalette_generated Math_pow st src st' src' :
  Forall unit_sample src ->
  Z.of_nat (List.length (List.filter isPinned (colors st))) <= paletteSize st ->
  generateNewPalette Math_pow st src = Some (st', src') ->
  exists fresh,
    colors st' = List.filter isPinned (colors st) ++ map unpinned fresh /\
    Forall (generated Math_pow (format st)) fresh /\
    Z.of_nat (List.length (colors st')) = paletteSize st /\
    st' = set_colors st (colors st').
Proof.
  intros Hs Hp H. unfold generateNewPalette in H.
  apply bind_Some in H. destruct H as (newValues & s1 & Hn & H).
  apply bind_Some in H. destruct H as (res & s2 & Hf & H).
  apply ret_Some in H. destruct H as [<- <-].
  destruct (generateRandomPaletteValues_spec _ _ _ _ _ _ Hs Hn) as (Ln & Fn & Hs1).
  rewrite pushPinned_spec, pushFresh_spec in Hf.
  change (skipn 0 newValues) with newValues in Hf. cbn [app] in Hf.
  set (P := List.filter isPinned (colors st)) in *.
  set (F1 := firstn (List.length (loose (colors st))) newValues) in *.
  destruct (fillToSize_generated _ _ _ _ _ _ _ _ Hs1 Hf) as (extras & -> & Fx & L).
  assert (Hk : (List.length F1 <= List.length newValues)%nat)
    by (unfold F1; rewrite length_firstn; lia).
  rewrite !length_app, !length_map in L.
  assert (Hz : 0 <= paletteSize st) by lia.
  rewrite Array_slice0_nonneg by exact Hz.
  rewrite firstn_all2 by (rewrite !length_app, !length_map; lia).
  exists (F1 ++ extras).
  cbn [colors set_colors]. rewrite map_app, <- app_assoc.
  split; [reflexivity|]. split.
  { apply Forall_app. split; [|exact Fx]. unfold F1. apply Forall_take. exact Fn. }
  split; [|reflexivity].
  rewrite !length_app, !length_map. lia.
Qed.

(** X12. A change of format regenerates like [generateNewPalette]: the pinned
    entries stay as they are stored, in order and in the encoding they were
    pinned in, and every other entry of the result is a newly generated
    value written in the new format. *)
Theorem handleChangeFormat_keeps_pinned
    (Math_pow : float -> float -> float) (newFormat : ColorCodeType)
    (st : State) (src : list Q) (st' : State) (src' : list Q) :
  Forall unit_sample src ->
  Z.of_nat (List.length (List.filter isPinned (colors st))) <= paletteSize st ->
  handleChangeFormat Math_pow newFormat st src = Some (st', src') ->
  format st' = newFormat /\
  List.filter isPinned (colors st') = List.filter isPinned (colors st) /\
  exists fresh,
    colors st' = List.filter isPinned (colors st) ++ map unpinned fresh /\
    Forall (fun v => exists c, v = encodeColor newFormat c /\ accepted Math_pow c) fresh /\
    Z.of_nat (List.length (colors st')) = paletteSize st.
Proof.
  intros Hs Hp H. rewrite handleChangeFormat_eq in H.
  destruct (generateNewPalette_generated Math_pow (set_format st newFormat)
              src st' src' Hs Hp H) as (fresh & E & F & L & Est).
  cbn [colors format paletteSize set_format] in *.
  split; [rewrite Est; reflexivity|].
  split.
  { rewrite E, List.filter_app, filter_pinned_unpinned, app_nil_r.
    apply filter_pinned_idem. }
  exists fresh. split; [exact E|]. split; [exact F | exact L].
Qed.

Lemma handleChangeFormat_keeps_pinned_witness :
  List.filter isPinned [pin "00ff00"; unpinned "rgb(30, 12, 40)"; unpinned "rgb(108, 60, 90)"]
  = List.filter isPinned (colors scenario).
Proof.
  refine (proj1 (proj2 (handleChangeFormat_keeps_pinned Sample.Math_pow RGB scenario
            sampleSource
            (set_colors (set_format scenario RGB)
               [pin "00ff00"; unpinned "rgb(30, 12, 40)"; unpinned "rgb(108, 60, 90)"])
            [0; 1#121; 5#121]%Q _ _ _))).
  - repeat constructor; discriminate.
  - vm_compute. discriminate.
  - vm_compute. reflexivity.
Defined.

(** ** The length of the palette *)

Lemma ensurePaletteSize_length Math_pow st src st' src' :
  0 <= paletteSize st ->
  ensurePaletteSize Math_pow st src = Some (st', src') ->
  Z.of_nat (List.length (colors st')) = paletteSize st' /\
  paletteSize st' = paletteSize st.
Proof.
  intros Hz H. unfold ensurePaletteSize in H.
  destruct (Z.ltb_spec (Z.of_nat (List.length (colors st))) (paletteSize st)) as [Hl|Hl].
  - apply bind_Some in H. destruct H as (fresh & s1 & Hg & H).
    apply ret_Some in H. destruct H as [<- <-].
    apply generateRandomPaletteValues_length in Hg.
    cbn [colors paletteSize set_colors]. rewrite length_app, length_map. lia.
  - destruct (Z.ltb_spec (paletteSize st) (Z.of_nat (List.length (colors st))));
      apply ret_Some in H; destruct H as [<- <-];
      cbn [colors paletteSize set_colors]; [|lia].
    rewrite Array_slice0_nonneg by exact Hz. rewrite length_firstn. lia.
Qed.

(** X13. A palette that has as many entries as the configured size keeps
    that after every handler: a pin toggle, a regeneration, a change of
    format and a resize to a size that is not negative. *)
Theorem palette_length_invariant
    (Math_pow : float -> float -> float) (st : State) :
  Z.of_nat (List.length (colors st)) = paletteSize st ->
  (forall index,
     Z.of_nat (List.length (colors (handleTogglePin index st)))
     = paletteSize (handleTogglePin index st)) /\
  (forall src st' src',
     generateNewPalette Math_pow st src = Some (st', src') ->
     Z.of_nat (List.length (colors st')) = paletteSize st') /\
  (forall newFormat src st' src',
     handleChangeFormat Math_pow newFormat st src = Some (st', src') ->
     Z.of_nat (List.length (colors st')) = paletteSize st') /\
  (forall newSize src st' src',
     0 <= newSize ->
     handleChangeSize Math_pow newSize st src = Some (st', src') ->
     Z.of_nat (List.length (colors st')) = paletteSize st').
Proof.
  intros Hw.
  assert (Hp : Z.of_nat (List.length (List.filter isPinned (colors st))) <= paletteSize st).
  { pose proof (length_pinned_loose (colors st)). lia. }
  split; [|split; [|split]].
  - intros index.
    destruct (Z.ltb_spec index 0) as [Hn|Hn];
      [rewrite (handleTogglePin_undefined index st) by (apply colors_undefined; lia); exact Hw|].
    destruct (Z.ltb_spec index (Z.of_nat (List.length (colors st)))) as [Hl|Hl];
      [|rewrite (handleTogglePin_undefined index st) by (apply colors_undefined; lia); exact Hw].
    rewrite (handleTogglePin_in index st) by lia.
    cbn [colors paletteSize]. rewrite length_alter. exact Hw.
  - intros src st' src' H.
    destruct (generateNewPalette_shape _ _ _ _ _ Hp H) as (fresh & _ & L & ->).
    cbn [colors paletteSize set_colors] in *. exact L.
  - intros newFormat src st' src' H. rewrite handleChangeFormat_eq in H.
    destruct (generateNewPalette_shape _ (set_format st newFormat) _ _ _ Hp H)
      as (fresh & _ & L & ->).
    cbn [colors paletteSize set_colors set_format] in *. exact L.
  - intros newSize src st' src' Hn H. unfold handleChangeSize in H.
    apply ensurePaletteSize_length in H; [apply H | exact Hn].
Qed.

Lemma palette_length_invariant_witness :
  Z.of_nat (List.length (colors (handleTogglePin 1 scenario)))
  = paletteSize (handleTogglePin 1 scenario).
Proof.
  exact (proj1 (palette_length_invariant Sample.Math_pow scenario eq_refl) 1).
Defined.

(** ** Start-up *)

Lemma applyActivePalette_cases Math_pow JSON_parse_active raw st src st1 src1 :
  applyActivePalette Math_pow JSON_parse_active raw st src = Some (st1, src1) ->
  (st1 = st /\ src1 = src /\
   forall cs, JSON_parse_active raw = Some (ActiveObject (Some cs)) -> cs = []) \/
  (exists cs extra,
     cs <> [] /\
     JSON_parse_active raw = Some (ActiveObject (Some cs)) /\
     generateRandomPaletteValues Math_pow (format st)
       (paletteSize st - Z.of_nat (List.length cs)) src = Some (extra, src1) /\
     colors st1 = map unpinned (cs ++ extra) /\
     paletteSize st1 = Z.max (paletteSize st) (Z.of_nat (List.length cs)) /\
     format st1 = format st /\ localStorage st1 = localStorage st).
Proof.
  unfold applyActivePalette.
  destruct (JSON_parse_active raw) as [[|[[|hex hexes]|]]|] eqn:EP;
    try (intros H; apply ret_Some in H; destruct H as [<- <-]; left;
         repeat split; intros cs Hcs; congruence).
  set (cs := hex :: hexes). set (fromLibrary := map unpinned cs).
  assert (Lf : List.length fromLibrary = List.length cs) by apply length_map.
  intros H. right. exists cs.
  destruct (Z.ltb_spec (paletteSize st) (Z.of_nat (List.length fromLibrary))) as [Hg|Hg].
  - (* the size grows to the number of colours *)
    cbn [paletteSize set_paletteSize] in H.
    rewrite Z.ltb_irrefl in H. apply ret_Some in H. destruct H as [<- <-].
    exists []. split; [discriminate|]. split; [reflexivity|].
    split.
    { unfold generateRandomPaletteValues.
      replace (Z.to_nat (paletteSize st - Z.of_nat (List.length cs))) with 0%nat by lia.
      reflexivity. }
    cbn [colors paletteSize format localStorage set_colors set_paletteSize].
    rewrite Array_slice0_nonneg by lia. rewrite firstn_all2 by lia.
    rewrite app_nil_r. repeat split. lia.
  - destruct (Z.ltb_spec (Z.of_nat (List.length fromLibrary)) (paletteSize st)) as [Hl|Hl].
    + apply bind_Some in H. destruct H as (extra & s1 & He & H).
      apply ret_Some in H. destruct H as [<- <-].
      pose proof (generateRandomPaletteValues_length _ _ _ _ _ _ He) as Le.
      exists extra. split; [discriminate|]. split; [reflexivity|].
      rewrite Lf in He. split; [exact He|].
      cbn [colors paletteSize format localStorage set_colors].
      rewrite Array_slice0_nonneg by lia.
      rewrite firstn_all2 by (rewrite length_app, length_map; lia).
      rewrite map_app. repeat split. lia.
    + apply ret_Some in H. destruct H as [<- <-].
      exists []. split; [discriminate|]. split; [reflexivity|].
      split.
      { unfold generateRandomPaletteValues.
        replace (Z.to_nat (paletteSize st - Z.of_nat (List.length cs))) with 0%nat by lia.
        reflexivity. }
      cbn [colors paletteSize format localStorage set_colors].
      rewrite Array_slice0_nonneg by lia. rewrite firstn_all2 by lia.
      rewrite app_nil_r. repeat split. lia.
Qed.



(** A stored session that is an object without fields: start-up ends with a
    state that is not of the declared types. *)
Example startup_ill_typed :
  onMounted Sample.Math_pow Sample.JSON_parse_active Sample.JSON_parse_state
    (initialState {[ STORAGE_KEY := "{}" ]}) [] = Some (IllTyped, []).
Proof. vm_compute. reflexivity. Qed.

(** X15. Applying a library entry that has colours and then starting the
    generator seeds the palette with exactly those colours, in order and not
    pinned; the size grows to their number when that is above 5, a shorter
    list is padded with freshly generated HEX colours, and the hand-off key
    is gone afterwards. [JSON.parse] is assumed to read back what
    [JSON.stringify] wrote for this entry. *)
Theorem library_handoff_seeds_palette
    (Math_pow : float -> float -> float)
    (JSON_parse_active : string -> option ActivePayload)
    (JSON_parse_state : string -> option ParsedSession)
    (item : SavedPaletteItem) (storage : gmap string string)
    (src : list Q) (out : Loaded) (src' : list Q) :
  item_colors item <> [] ->
  JSON_parse_active (JSON_stringify_colors (item_colors item))
    = Some (ActiveObject (Some (item_colors item))) ->
  onMounted Math_pow JSON_parse_active JSON_parse_state
    (initialState (applyPalette item storage)) src = Some (out, src') ->
  exists st' extra,
    out = Typed st' /\
    generateRandomPaletteValues Math_pow HEX
      (5 - Z.of_nat (List.length (item_colors item))) src = Some (extra, src') /\
    colors st' = map unpinned (item_colors item ++ extra) /\
    paletteSize st' = Z.max 5 (Z.of_nat (List.length (item_colors item))) /\
    Z.of_nat (List.length (colors st')) = paletteSize st' /\
    localStorage st' = delete ACTIVE_PALETTE_KEY storage.
Proof.
  intros Hne Hp H. unfold onMounted in H.
  cbn [localStorage initialState] in H. unfold applyPalette in H.
  rewrite lookup_insert_eq in H.
  change (String.eqb (JSON_stringify_colors (item_colors item)) "") with false in H.
  apply bind_Some in H. destruct H as (st1 & s1 & Ha & H).
  apply ret_Some in H. destruct H as [<- <-].
  destruct (applyActivePalette_cases _ _ _ _ _ _ _ Ha)
    as [(_ & _ & K) | (cs & extra & Hcs & Ecs & He & Ec & Ep & _ & El)].
  - exfalso. apply Hne. apply K. exact Hp.
  - rewrite Hp in Ecs. injection Ecs as <-.
    cbn [format paletteSize localStorage initialState] in *.
    exists (removeItem ACTIVE_PALETTE_KEY st1), extra.
    split; [reflexivity|]. split; [exact He|].
    cbn [colors paletteSize localStorage removeItem].
    split; [exact Ec|]. split; [exact Ep|].
    apply generateRandomPaletteValues_length in He.
    split; [rewrite Ec, Ep, length_map, length_app; lia|].
    rewrite El. apply delete_insert_eq.
Qed.

Lemma library_handoff_seeds_palette_witness :
  exists extra,
    generateRandomPaletteValues Sample.Math_pow HEX
      (5 - Z.of_nat (List.length (item_colors sunset))) sampleSource = Some (extra, []) /\
    map unpinned ["112233"; "445566"; "1e0c28"; "6c3c5a"; "000105"]
    = map unpinned (item_colors sunset ++ extra).
Proof.
  destruct (library_handoff_seeds_palette Sample.Math_pow Sample.JSON_parse_active
              Sample.JSON_parse_state sunset ∅ sampleSource
              (Typed
                 (removeItem ACTIVE_PALETTE_KEY
                    (set_colors (initialState (applyPalette sunset ∅))
                       (map unpinned ["112233"; "445566"; "1e0c28"; "6c3c5a"; "000105"]))))
              [])
    as (st' & extra & Eo & He & Ec & _).
  - discriminate.
  - vm_compute. reflexivity.
  - vm_compute. reflexivity.
  - injection Eo as <-. exists extra. split; [exact He | exact Ec].
Defined.

(** ** The library: favourites and deletion *)

Lemma updateFound_None p f l :
  updateFound p f l = None <-> forall it, In it l -> p it = false.
Proof.
  induction l as [|x l IH]; cbn [updateFound].
  - split; [intros _ it [] | reflexivity].
  - destruct (p x) eqn:E.
    + split; [discriminate|]. intros H. rewrite (H x) in E by (left; reflexivity).
      discriminate.
    + destruct (updateFound p f l) as [l'|].
      * split; [discriminate|]. intros H. exfalso.
        assert (K : Some l' = None); [|discriminate K].
        apply IH. intros it Hit. apply H. right. exact Hit.
      * split; [|reflexivity]. intros _ it [<-|Hit]; [exact E|].
        apply (proj1 IH eq_refl). exact Hit.
Qed.

Lemma updateFound_twice p f l l' :
  (forall x, p (f x) = p x) -> (forall x, f (f x) = x) ->
  updateFound p f l = Some l' -> updateFound p f l' = Some l.
Proof.
  intros Hp Hf. revert l'. induction l as [|x l IH]; intros l' H;
    cbn [updateFound] in H; [discriminate|].
  destruct (p x) eqn:E.
  - injection H as <-. cbn [updateFound]. rewrite Hp, E, Hf. reflexivity.
  - destruct (updateFound p f l) as [l0|]; [|discriminate].
    injection H as <-. cbn [updateFound]. rewrite E, (IH l0 eq_refl). reflexivity.
Qed.

Lemma flipFavorite_flipFavorite it : flipFavorite (flipFavorite it) = it.
Proof. destruct it. unfold flipFavorite. cbn. rewrite negb_involutive. reflexivity. Qed.

(** X16. [toggleFavorite] flips the favourite flag of the first entry that
    has the id, and changes nothing else: not the other fields of that
    entry, not a later entry with the same id, not the editor. *)
Theorem toggleFavorite_first_only
    (ident : string) (lib : Library) (i : nat) (it : SavedPaletteItem) :
  nth_error (items lib) i = Some it -> id it = ident ->
  (forall j it', (j < i)%nat -> nth_error (items lib) j = Some it' -> id it' <> ident) ->
  nth_error (items (toggleFavorite ident lib)) i = Some (flipFavorite it) /\
  favorite (flipFavorite it) = negb (favorite it) /\
  name (flipFavorite it) = name it /\ tags (flipFavorite it) = tags it /\
  item_colors (flipFavorite it) = item_colors it /\ id (flipFavorite it) = id it /\
  (forall j, j <> i ->
     nth_error (items (toggleFavorite ident lib)) j = nth_error (items lib) j) /\
  List.length (items (toggleFavorite ident lib)) = List.length (items lib) /\
  editingId (toggleFavorite ident lib) = editingId lib.
Proof.
  intros Hi Hid Hfirst.
  destruct (updateFound_spec (fun x => String.eqb (id x) ident) flipFavorite
              (items lib) i it Hi) as (l' & E & Hn & Hl & Ho).
  { apply String.eqb_eq. exact Hid. }
  { intros j it' Hj Hit. apply String.eqb_neq. eapply Hfirst; eassumption. }
  unfold toggleFavorite. rewrite E. cbn [items editingId].
  split; [exact Hn|]. do 5 (split; [reflexivity|]).
  split; [exact Ho|]. split; [exact Hl | reflexivity].
Qed.

Lemma toggleFavorite_first_only_witness :
  nth_error (items (toggleFavorite "pal_2" editing)) 1 = Some (flipFavorite ocean) /\
  favorite (flipFavorite ocean) = true.
Proof.
  split; [|reflexivity].
  refine (proj1 (toggleFavorite_first_only "pal_2" editing 1 ocean eq_refl eq_refl _)).
  intros [|j] it' Hj Hit; [|lia]. injection Hit as <-. discriminate.
Defined.

(** X17. Toggling the favourite flag of the same id twice gives the library
    back. *)
Theorem toggleFavorite_twice (ident : string) (lib : Library) :
  toggleFavorite ident (toggleFavorite ident lib) = lib.
Proof.
  unfold toggleFavorite at 2.
  destruct (updateFound (fun i => String.eqb (id i) ident) flipFavorite (items lib))
    as [l'|] eqn:E.
  - unfold toggleFavorite. cbn [items editingId editName editTags].
    rewrite (updateFound_twice (fun i => String.eqb (id i) ident) flipFavorite
               (items lib) l' (fun x => eq_refl) flipFavorite_flipFavorite E).
    destruct lib; reflexivity.
  - unfold toggleFavorite. rewrite E. reflexivity.
Qed.

Lemma filter_filter_andb {A} (p q : A -> bool) l :
  List.filter p (List.filter q l) = List.filter (fun x => q x && p x) l.
Proof.
  induction l as [|x l IH]; cbn [List.filter]; [reflexivity|].
  destruct (q x); cbn [List.filter andb]; [destruct (p x)|]; rewrite IH; reflexivity.
Qed.

(** X18. [deleteItem] removes every entry that has the id, however many
    there are, and nothing else: what is left is the library with entries
    struck out, so the entries kept stand in the order they had; none of
    them has the id; every entry of another id is kept; the number of
    entries falls by the number of entries that had the id. Deleting the
    same id again changes nothing. *)
Theorem deleteItem_removes_all (ident : string) (lib : Library) :
  sublist (items (deleteItem ident lib)) (items lib) /\
  Forall (fun it => id it <> ident) (items (deleteItem ident lib)) /\
  (forall other, other <> ident ->
     List.filter (fun it => String.eqb (id it) other) (items (deleteItem ident lib))
     = List.filter (fun it => String.eqb (id it) other) (items lib)) /\
  (List.length (items (deleteItem ident lib))
   + List.length (List.filter (fun it => String.eqb (id it) ident) (items lib))
   = List.length (items lib))%nat /\
  deleteItem ident (deleteItem ident lib) = deleteItem ident lib.
Proof.
  unfold deleteItem. cbn [items editingId editName editTags].
  split; [|split; [|split; [|split]]].
  - induction (items lib) as [|x l IH]; cbn [List.filter]; [constructor|].
    destruct (String.eqb (id x) ident); cbn [negb];
      [apply sublist_cons | apply sublist_skip]; exact IH.
  - induction (items lib) as [|x l IH]; cbn [List.filter]; [constructor|].
    destruct (String.eqb_spec (id x) ident); cbn [negb]; [exact IH|].
    constructor; assumption.
  - intros other Ho. rewrite filter_filter_andb. apply List.filter_ext.
    intros it. destruct (String.eqb_spec (id it) ident) as [->|]; cbn [negb andb];
      [|reflexivity].
    symmetry. apply String.eqb_neq. congruence.
  - induction (items lib) as [|x l IH]; cbn [List.filter]; [reflexivity|].
    destruct (String.eqb (id x) ident); cbn [negb List.length]; lia.
  - f_equal. rewrite filter_filter_andb. apply List.filter_ext.
    intros it. destruct (String.eqb (id it) ident); reflexivity.
Qed.

(** X19. An id that no entry has: [toggleFavorite] and [deleteItem] leave the
    library as it is, and so does [saveEdit], which then does not even
    close the editor. [saveEdit] also does nothing while no entry is being
    edited. *)
Theorem absent_id_changes_nothing (ident : string) (lib : Library) :
  (forall it, In it (items lib) -> id it <> ident) ->
  toggleFavorite ident lib = lib /\
  deleteItem ident lib = lib /\
  (editingId lib = Some ident \/ editingId lib = None \/ editingId lib = Some "" ->
   saveEdit lib = lib).
Proof.
  intros H.
  assert (N : forall f, updateFound (fun i => String.eqb (id i) ident) f (items lib)
                        = None).
  { intros f. apply updateFound_None. intros it Hit. apply String.eqb_neq.
    apply H. exact Hit. }
  split; [unfold toggleFavorite; rewrite N; reflexivity|]. split.
  - unfold deleteItem. rewrite List.forallb_filter_id; [destruct lib; reflexivity|].
    apply List.forallb_forall. intros it Hit. apply negb_true_iff, String.eqb_neq.
    apply H. exact Hit.
  - intros [E | [E | E]]; unfold saveEdit; rewrite E; [|reflexivity|reflexivity].
    destruct (truthy ident); [rewrite N|]; reflexivity.
Qed.

Lemma absent_id_changes_nothing_witness :
  toggleFavorite "pal_9" editing = editing /\ deleteItem "pal_9" editing = editing.
Proof.
  destruct (absent_id_changes_nothing "pal_9" editing) as (T & D & _).
  - intros it [<-|[<-|[]]]; discriminate.
  - split; [exact T | exact D].
Defined.

(** ** The library: the text of the tags *)

Lemma noChar_app x (s t : string) :
  noChar x s = true -> noChar x t = true -> noChar x (s ++ t) = true.
Proof.
  induction s as [|c s IH]; intros Hs Ht; [rewrite append_nil; exact Ht|].
  rewrite append_cons. cbn [noChar] in *. apply andb_prop in Hs.
  destruct Hs as [Hc Hs]. rewrite Hc, IH by assumption. reflexivity.
Qed.

Lemma split_noChar x t : noChar x t = true -> JS.split x t = [t].
Proof.
  induction t as [|c t IH]; [reflexivity|]. cbn [noChar JS.split]. intros H.
  apply andb_prop in H. destruct H as [Hc Ht]. apply negb_true_iff in Hc.
  rewrite Hc, IH by exact Ht. reflexivity.
Qed.

Lemma split_app x t r :
  noChar x t = true ->
  JS.split x (t ++ String x r) = t :: JS.split x r.
Proof.
  induction t as [|c t IH]; intros H.
  - rewrite append_nil. cbn [JS.split]. rewrite Ascii.eqb_refl. reflexivity.
  - rewrite append_cons. cbn [noChar] in H. apply andb_prop in H.
    destruct H as [Hc Ht]. apply negb_true_iff in Hc.
    cbn [JS.split]. rewrite Hc, IH by exact Ht. reflexivity.
Qed.

Lemma split_parts x s : Forall (fun p => noChar x p = true) (JS.split x s).
Proof.
  induction s as [|c s IH]; [repeat constructor|]. cbn [JS.split].
  destruct (Ascii.eqb c x) eqn:E; [constructor; [reflexivity | exact IH]|].
  destruct (JS.split x s) as [|p ps]; [repeat constructor; cbn; rewrite E; reflexivity|].
  inversion IH; subst. constructor; [|assumption].
  cbn [noChar]. rewrite E. assumption.
Qed.

Lemma trimStart_noChar x s : noChar x s = true -> noChar x (JS.trimStart s) = true.
Proof.
  induction s as [|c s IH]; [trivial|]. intros H. cbn [JS.trimStart].
  destruct (JS.isWhiteSpace c); [|exact H].
  cbn [noChar] in H. apply andb_prop in H. apply IH, H.
Qed.

Lemma trimEnd_noChar x s : noChar x s = true -> noChar x (JS.trimEnd s) = true.
Proof.
  induction s as [|c s IH]; [trivial|]. intros H. cbn [noChar] in H.
  apply andb_prop in H. destruct H as [Hc Hs]. specialize (IH Hs).
  rewrite trimEnd_cons. destruct (JS.trimEnd s) as [|c' s'].
  - destruct (JS.isWhiteSpace c); [reflexivity|]. cbn [noChar]. rewrite Hc. reflexivity.
  - cbn [noChar] in *. rewrite Hc. exact IH.
Qed.

Lemma append_assoc (a b c : string) : ((a ++ b) ++ c)%string = (a ++ (b ++ c))%string.
Proof.
  induction a as [|x a IH]; [reflexivity|]. rewrite !append_cons, IH. reflexivity.
Qed.

Lemma split_join pre t ts :
  noChar "," pre = true -> Forall (fun p => noChar "," p = true) (t :: ts) ->
  JS.split "," (pre ++ Array_join ", " (t :: ts))
  = (pre ++ t)%string :: map (String " ") ts.
Proof.
  revert pre t. induction ts as [|t2 ts IH]; intros pre t Hp F.
  - inversion F; subst. cbn [Array_join map]. apply split_noChar, noChar_app; assumption.
  - inversion F as [|? ? Ht F']; subst.
    change (Array_join ", " (t :: t2 :: ts))
      with (t ++ String "," (String " " EmptyString ++ Array_join ", " (t2 :: ts)))%string.
    rewrite <- append_assoc, split_app by (apply noChar_app; assumption).
    rewrite (IH (String " " EmptyString) t2 eq_refl F'). reflexivity.
Qed.

Lemma trim_space t : JS.trim (String " " t) = JS.trim t.
Proof. reflexivity. Qed.

Lemma parse_join ts :
  Forall wellFormedTag ts ->
  List.filter truthy (map JS.trim (JS.split "," (Array_join ", " ts))) = ts.
Proof.
  intros F. destruct ts as [|t ts]; [reflexivity|].
  assert (Fc : Forall (fun p => noChar "," p = true) (t :: ts)).
  { eapply List.Forall_impl; [|exact F]. intros a (_ & _ & H). exact H. }
  pose proof (split_join EmptyString t ts eq_refl Fc) as E.
  rewrite !append_nil in E. rewrite E. clear E Fc.
  inversion F as [|? ? (Hn & Ht & _) F']; subst. cbn [map List.filter].
  rewrite Ht. unfold truthy at 1. rewrite (proj2 (String.eqb_neq t "") Hn). cbn [negb].
  f_equal. clear F Hn Ht. induction F' as [|a l (Hn & Ht & _) _ IH]; [reflexivity|].
  cbn [map List.filter]. rewrite trim_space, Ht. unfold truthy at 1.
  rewrite (proj2 (String.eqb_neq a "") Hn). cbn [negb]. rewrite IH. reflexivity.
Qed.

Lemma parsed_tags_wellFormed s :
  Forall wellFormedTag (List.filter truthy (map JS.trim (JS.split "," s))).
Proof.
  pose proof (split_parts "," s) as F.
  induction F as [|p ps Hp _ IH]; cbn [map List.filter]; [constructor|].
  destruct (truthy (JS.trim p)) eqn:T; [|exact IH].
  constructor; [|exact IH]. split; [|split].
  - unfold truthy in T. apply negb_true_iff in T. apply String.eqb_neq. exact T.
  - apply trim_idem.
  - unfold JS.trim. apply trimEnd_noChar, trimStart_noChar, Hp.
Qed.

(** X20. The tags [saveEdit] writes survive the editor: joined with a comma
    and a space, as [startEdit] shows them, and parsed again by [saveEdit],
    they are the same list. This holds for the tags parsed from any text. *)
Theorem tags_text_round_trip
    (text newName newName' : string) (it it' : SavedPaletteItem) :
  tags (applyEdit newName'
          (Array_join ", " (tags (applyEdit newName text it))) it')
  = tags (applyEdit newName text it).
Proof.
  cbn [tags applyEdit]. apply parse_join, parsed_tags_wellFormed.
Qed.

Lemma updateFound_unchanged p f l i it :
  nth_error l i = Some it -> p it = true -> f it = it ->
  (forall j it', (j < i)%nat -> nth_error l j = Some it' -> p it' = false) ->
  updateFound p f l = Some l.
Proof.
  revert i. induction l as [|x l IH]; intros i Hi Hp Hf Hfirst.
  - destruct i; discriminate.
  - destruct i as [|i]; cbn [nth_error] in Hi.
    + injection Hi as ->. cbn [updateFound]. rewrite Hp, Hf. reflexivity.
    + cbn [updateFound]. rewrite (Hfirst 0%nat x ltac:(lia) eq_refl).
      rewrite (IH i Hi Hp Hf); [reflexivity|].
      intros j it' Hj Hit. apply (Hfirst (S j)); [lia | exact Hit].
Qed.

(** X21. Opening the editor on an entry and saving at once, with nothing
    typed, is the same as cancelling: the library is as before and the
    editor is closed. This needs the entry to be the first with its id, the
    id not to be empty, the name to be trimmed and the tags to be as
    [saveEdit] writes them. *)
Theorem edit_without_change
    (lib : Library) (i : nat) (it : SavedPaletteItem) :
  nth_error (items lib) i = Some it ->
  (forall j it', (j < i)%nat -> nth_error (items lib) j = Some it' -> id it' <> id it) ->
  id it <> "" -> JS.trim (name it) = name it -> Forall wellFormedTag (tags it) ->
  saveEdit (startEdit it lib) = cancelEdit lib.
Proof.
  intros Hi Hfirst Hid Hname Htags.
  assert (E : applyEdit (name it) (Array_join ", " (tags it)) it = it).
  { unfold applyEdit. rewrite parse_join by exact Htags. rewrite Hname.
    destruct it; cbn. destruct (truthy _); reflexivity. }
  unfold saveEdit, startEdit, cancelEdit. cbn [editingId editName editTags items].
  unfold truthy at 1. rewrite (proj2 (String.eqb_neq (id it) "") Hid). cbn [negb].
  rewrite (updateFound_unchanged _ _ (items lib) i it Hi); trivial.
  - apply String.eqb_refl.
  - intros j it' Hj Hit. apply String.eqb_neq. eapply Hfirst; eassumption.
Qed.

Lemma edit_without_change_witness :
  saveEdit (startEdit ocean editing) = cancelEdit editing.
Proof.
  apply (edit_without_change editing 1 ocean eq_refl).
  - intros [|j] it' Hj Hit; [|lia]. injection Hit as <-. discriminate.
  - discriminate.
  - reflexivity.
  - repeat constructor; discriminate.
Defined.

(** ** The library: filters *)

Lemma matchesFilters_split q tag fav it :
  matchesFilters q tag fav it =
  matchesFilters "" "" fav it && matchesFilters "" tag false it
  && matchesFilters q "" false it.
Proof.
  unfold matchesFilters. cbn [truthy String.eqb negb andb].
  destruct (fav && negb (favorite it)); cbn [andb]; [reflexivity|].
  destruct (truthy q && negb _); cbn [andb];
    destruct (truthy tag && negb _); reflexivity.
Qed.

(** X22. With a blank search text, a blank tag filter and the favourites
    switch off, the list shows the whole library in its order. *)
Theorem filteredItems_blank (search tagFilter : string) (items : list SavedPaletteItem) :
  JS.trim search = "" -> JS.trim tagFilter = "" ->
  filteredItems search tagFilter false items = items.
Proof.
  intros Hs Ht. unfold filteredItems. rewrite Hs, Ht. cbn [JS.toLowerCase].
  apply List.forallb_filter_id. apply List.forallb_forall. intros it _. reflexivity.
Qed.

Lemma filteredItems_blank_witness :
  filteredItems "   " "" false [sunset; ocean] = [sunset; ocean].
Proof. exact (filteredItems_blank "   " "" [sunset; ocean] eq_refl eq_refl). Defined.

(** X23. The three filters combine as a conjunction: filtering by all of
    them is filtering by the favourites switch, then by the tag, then by
    the search text, each on the result of the one before. *)
Theorem filteredItems_compose
    (search tagFilter : string) (showFavoritesOnly : bool)
    (items : list SavedPaletteItem) :
  filteredItems search tagFilter showFavoritesOnly items
  = filteredItems search "" false
      (filteredItems "" tagFilter false
         (filteredItems "" "" showFavoritesOnly items)).
Proof.
  unfold filteredItems. change (JS.toLowerCase (JS.trim "")) with "".
  rewrite !filter_filter_andb. apply List.filter_ext. intros it.
  rewrite Bool.andb_assoc. apply matchesFilters_split.
Qed.

Lemma lowerChar_whiteSpace c : JS.isWhiteSpace (JS.lowerChar c) = JS.isWhiteSpace c.
Proof.
  assert (K : forallb whiteSpaceKept allAscii = true) by (vm_compute; reflexivity).
  rewrite List.forallb_forall in K. apply Bool.eqb_prop, K, allAscii_all.
Qed.

Lemma trimStart_lower s :
  JS.trimStart (JS.toLowerCase s) = JS.toLowerCase (JS.trimStart s).
Proof.
  induction s as [|c s IH]; [reflexivity|]. cbn [JS.toLowerCase JS.trimStart].
  rewrite lowerChar_whiteSpace. destruct (JS.isWhiteSpace c); [exact IH | reflexivity].
Qed.

Lemma trimEnd_lower s :
  JS.trimEnd (JS.toLowerCase s) = JS.toLowerCase (JS.trimEnd s).
Proof.
  induction s as [|c s IH]; [reflexivity|]. cbn [JS.toLowerCase].
  rewrite !trimEnd_cons, IH, lowerChar_whiteSpace.
  destruct (JS.trimEnd s) as [|c' s']; cbn [JS.toLowerCase];
    [destruct (JS.isWhiteSpace c)|]; reflexivity.
Qed.

(** X24. The search text and the tag filter are read without regard to
    case: putting either in lower case before filtering changes nothing. *)
Theorem filteredItems_case_insensitive
    (search tagFilter : string) (showFavoritesOnly : bool)
    (items : list SavedPaletteItem) :
  filteredItems (JS.toLowerCase search) (JS.toLowerCase tagFilter)
    showFavoritesOnly items
  = filteredItems search tagFilter showFavoritesOnly items.
Proof.
  unfold filteredItems, JS.trim.
  rewrite !trimStart_lower, !trimEnd_lower, !toLowerCase_idem. reflexivity.
Qed.

Example filteredItems_scenario :
  filteredItems "sunset" "" false
    [ {| id := "a"; name := "Sunset glow"; tags := []; item_colors := ["112233"];
         favorite := false; createdAt := "" |};
      {| id := "b"; name := "Ocean"; tags := ["sunset"]; item_colors := ["112233"];
         favorite := false; createdAt := "" |};
      {| id := "c"; name := "Forest"; tags := []; item_colors := ["112233"];
         favorite := false; createdAt := "" |} ]
  = [ {| id := "a"; name := "Sunset glow"; tags := []; item_colors := ["112233"];
         favorite := false; createdAt := "" |};
      {| id := "b"; name := "Ocean"; tags := ["sunset"]; item_colors := ["112233"];
         favorite := false; createdAt := "" |} ].
Proof. reflexivity. Qed.

(** ** The library: the list of all tags *)

Lemma setAdd_In seen l x : In x (setAdd seen l) <-> In x seen \/ In x l.
Proof.
  revert seen. induction l as [|t l IH]; intros seen; cbn [setAdd].
  - split; [auto | intros [H|[]]; exact H].
  - destruct (existsb (String.eqb t) seen) eqn:E.
    + rewrite IH. split; [intros [H|H]; auto; right; right; exact H|].
      intros [H|[<-|H]]; auto. left.
      apply List.existsb_exists in E. destruct E as (y & Hy & Ey).
      apply String.eqb_eq in Ey. subst. exact Hy.
    + rewrite IH, in_app_iff. cbn [In]. tauto.
Qed.

Lemma setAdd_NoDup seen l : List.NoDup seen -> List.NoDup (setAdd seen l).
Proof.
  revert seen. induction l as [|t l IH]; intros seen H; cbn [setAdd]; [exact H|].
  destruct (existsb (String.eqb t) seen) eqn:E; apply IH; [exact H|].
  apply List.NoDup_app; [exact H | repeat constructor; intros [] |].
  intros x Hx [Ex|[]]. subst x.
  assert (K : existsb (String.eqb t) seen = true).
  { apply List.existsb_exists. exists t. split; [exact Hx | apply String.eqb_refl]. }
  congruence.
Qed.

Lemma insertSorted_In x l y : In y (insertSorted x l) <-> y = x \/ In y l.
Proof.
  induction l as [|z l IH]; cbn [insertSorted In]; [intuition congruence|].
  destruct (String.leb x z); cbn [In]; [intuition congruence|].
  rewrite IH. intuition congruence.
Qed.

Lemma insertSorted_NoDup x l :
  ~ In x l -> List.NoDup l -> List.NoDup (insertSorted x l).
Proof.
  induction l as [|z l IH]; intros Hx Hl; cbn [insertSorted].
  - repeat constructor. intros [].
  - destruct (String.leb x z); [constructor; assumption|].
    inversion Hl; subst. constructor.
    + rewrite insertSorted_In. intros [->|H]; [apply Hx; left; reflexivity | contradiction].
    + apply IH; [intros H; apply Hx; right; exact H | assumption].
Qed.

Lemma insertSorted_sorted x l :
  LocallySorted ascending l -> LocallySorted ascending (insertSorted x l).
Proof.
  induction 1 as [|z|z w l Hl IH Hzw]; cbn [insertSorted].
  - constructor.
  - destruct (String.leb x z) eqn:E; [repeat constructor; exact E|].
    repeat constructor. destruct (String.leb_total x z) as [K|K]; [congruence | exact K].
  - destruct (String.leb x z) eqn:E; [repeat constructor; assumption|].
    cbn [insertSorted] in IH. destruct (String.leb x w) eqn:E2.
    + constructor; [exact IH|].
      destruct (String.leb_total x z) as [K|K]; [congruence | exact K].
    + constructor; assumption.
Qed.

Lemma Array_sort_In l y : In y (Array_sort l) <-> In y l.
Proof.
  induction l as [|x l IH]; cbn [Array_sort fold_right In]; [tauto|].
  rewrite insertSorted_In. fold (Array_sort l). rewrite IH. intuition congruence.
Qed.

Lemma Array_sort_NoDup l : List.NoDup l -> List.NoDup (Array_sort l).
Proof.
  induction 1 as [|x l Hx Hl IH]; cbn [Array_sort fold_right]; [constructor|].
  apply insertSorted_NoDup; [|exact IH].
  fold (Array_sort l). rewrite Array_sort_In. exact Hx.
Qed.

Lemma Array_sort_sorted l : LocallySorted ascending (Array_sort l).
Proof.
  induction l as [|x l IH]; cbn [Array_sort fold_right]; [constructor|].
  apply insertSorted_sorted, IH.
Qed.

(** X25. The list of all tags holds exactly the tags that some entry has,
    each of them once, in ascending order of their code units. *)
Theorem allTags_sorted_set (items : list SavedPaletteItem) :
  (forall t, In t (allTags items) <-> exists it, In it items /\ In t (tags it)) /\
  List.NoDup (allTags items) /\
  LocallySorted ascending (allTags items).
Proof.
  unfold allTags. split; [|split].
  - intros t. rewrite Array_sort_In, setAdd_In, List.in_flat_map. cbn [In]. tauto.
  - apply Array_sort_NoDup, setAdd_NoDup. constructor.
  - apply Array_sort_sorted.
Qed.

Example allTags_scenario :
  allTags [ {| id := "a"; name := "A"; tags := ["warm"; "dark"]; item_colors := [];
               favorite := false; createdAt := "" |};
            {| id := "b"; name := "B"; tags := ["dark"; "Blue"]; item_colors := [];
               favorite := false; createdAt := "" |} ]
  = ["Blue"; "dark"; "warm"].
Proof. reflexivity. Qed.

(** ** The export view: the lines of the generated text *)

Lemma decDigits_oneLine fuel n acc :
  oneLine acc -> oneLine (JS.decDigits fuel n acc).
Proof.
  revert n acc. induction fuel as [|f IH]; intros n acc H; [exact H|].
  cbn [JS.decDigits]. cbv zeta.
  assert (K : oneLine (String (ascii_of_N (Z.to_N (48 + n mod 10))) acc)).
  { unfold oneLine in *. cbn [noChar]. rewrite H, andb_true_r.
    assert (B : 0 <= n mod 10 < 10) by (apply Z.mod_pos_bound; lia).
    assert (C : n mod 10 = 0 \/ n mod 10 = 1 \/ n mod 10 = 2 \/ n mod 10 = 3 \/
                n mod 10 = 4 \/ n mod 10 = 5 \/ n mod 10 = 6 \/ n mod 10 = 7 \/
                n mod 10 = 8 \/ n mod 10 = 9) by lia.
    repeat (destruct C as [C|C]; [rewrite C; reflexivity|]).
    rewrite C. reflexivity. }
  destruct (n / 10 =? 0); [exact K | apply IH, K].
Qed.

Lemma toString10_oneLine n : oneLine (JS.toString10 n).
Proof.
  unfold JS.toString10. destruct (n <? 0).
  - unfold oneLine. cbn [noChar].
    change (negb (Ascii.eqb "-" lineBreak)) with true. cbn [andb].
    apply decDigits_oneLine. reflexivity.
  - apply decDigits_oneLine. reflexivity.
Qed.

Lemma exportHex_oneLine c : oneLine c -> oneLine (exportHex c).
Proof.
  unfold exportHex. intros H. destruct (JS.startsWith c "#"); [exact H|].
  apply noChar_app; [reflexivity | exact H].
Qed.

Lemma cssLine_oneLine idx c : oneLine c -> oneLine (cssLine idx c).
Proof.
  intros H. unfold cssLine.
  repeat (apply noChar_app;
          [first [reflexivity | apply toString10_oneLine | apply exportHex_oneLine, H]|]).
  reflexivity.
Qed.

Lemma scssLine_oneLine idx c : oneLine c -> oneLine (scssLine idx c).
Proof.
  intros H. unfold scssLine.
  repeat (apply noChar_app;
          [first [reflexivity | apply toString10_oneLine | apply exportHex_oneLine, H]|]).
  reflexivity.
Qed.

Lemma imap_oneLine (f : nat -> string -> string) (l : list string) :
  (forall i c, oneLine c -> oneLine (f i c)) ->
  Forall oneLine l -> Forall oneLine (imap f l).
Proof.
  revert f. induction l as [|c l IH]; intros f Hf F; cbn [imap]; [constructor|].
  inversion F; subst. constructor; [apply Hf; assumption|].
  apply IH; [intros i c' Hc; apply Hf, Hc | assumption].
Qed.

Lemma split_lines (t : string) (ts : list string) :
  Forall oneLine (t :: ts) ->
  JS.split lineBreak (Array_join newline (t :: ts)) = t :: ts.
Proof.
  revert t. induction ts as [|t2 ts IH]; intros t F; inversion F as [|? ? Ht F']; subst.
  - cbn [Array_join]. apply split_noChar, Ht.
  - change (Array_join newline (t :: t2 :: ts))
      with (t ++ newline ++ Array_join newline (t2 :: ts))%string.
    unfold newline at 1. rewrite append_cons, append_nil.
    fold lineBreak. rewrite split_app by exact Ht. rewrite IH by exact F'. reflexivity.
Qed.

(** X26. When no colour of the palette holds a line break, the CSS text
    reads back, line by line, as the opening [:root {], then one
    declaration for each colour in the palette's order, numbered from 1,
    then the closing brace: as many lines as colours plus two. *)
Theorem cssVariables_lines (colors : list string) :
  Forall oneLine colors ->
  JS.split lineBreak (cssVariables colors)
  = (":root {" :: imap cssLine colors ++ ["}"])%list /\
  length (JS.split lineBreak (cssVariables colors)) = (length colors + 2)%nat.
Proof.
  intros F.
  assert (E : JS.split lineBreak (cssVariables colors)
              = (":root {" :: imap cssLine colors ++ ["}"])%list).
  { unfold cssVariables. cbn [app]. apply split_lines.
    constructor; [reflexivity|]. apply Forall_app. split.
    - apply imap_oneLine; [intros; apply cssLine_oneLine; assumption | exact F].
    - repeat constructor. }
  split; [exact E|]. rewrite E. cbn [length].
  rewrite length_app, length_imap. cbn [length]. lia.
Qed.

Lemma cssVariables_lines_witness :
  JS.split lineBreak (cssVariables ["1e0c28"; "#6c3c5a"])
  = [":root {"; "  --color-1: #1e0c28;"; "  --color-2: #6c3c5a;"; "}"].
Proof.
  refine (proj1 (cssVariables_lines ["1e0c28"; "#6c3c5a"] _)).
  repeat constructor.
Defined.

(** X27. When no colour of a non-empty palette holds a line break, the
    SCSS text reads back, line by line, as one variable for each colour
    in the palette's order, numbered from 1; for the empty palette the
    text is empty. *)
Theorem scssVariables_lines (colors : list string) :
  Forall oneLine colors ->
  scssVariables [] = "" /\
  (colors <> [] ->
   JS.split lineBreak (scssVariables colors) = imap scssLine colors).
Proof.
  intros F. split; [reflexivity|]. intros Hne. unfold scssVariables.
  destruct colors as [|c cs]; [congruence|].
  assert (K : Forall oneLine (imap scssLine (c :: cs))).
  { apply imap_oneLine; [intros; apply scssLine_oneLine; assumption | exact F]. }
  cbn [imap] in *. apply split_lines, K.
Qed.

Lemma scssVariables_lines_witness :
  JS.split lineBreak (scssVariables ["1e0c28"; "#6c3c5a"])
  = ["$color-1: #1e0c28;"; "$color-2: #6c3c5a;"].
Proof.
  refine (proj2 (scssVariables_lines ["1e0c28"; "#6c3c5a"] _) _).
  - repeat constructor.
  - discriminate.
Defined.
